(** * SmartSim scaling-test drivers: a shallow embedding and its properties

    The development embeds the three Python sources of the repository,

    - [driver.py]                 (module [Driver]),
    - [cpp-throughput/driver.py]  (module [CppThroughput]),
    - [throughput-plotter.py]     (modules [Plotter], [PlotterRuns]),

    together with the few pieces of Python and of the SmartSim experiment
    object they rely on (modules [Py], [Itertools], [SmartSim]).  The first
    half of the file holds the definitions, the second half the lemmas. *)

From Stdlib Require Import ZArith NArith List String Ascii Lia Bool Floats Uint63.
From stdpp Require Import base gmap strings list pretty.
Import ListNotations.
Open Scope string_scope.
Open Scope list_scope.

(* ===================================================================== *)
(** * Part I: the embedding                                               *)
(* ===================================================================== *)

(** ** Python values the drivers compute with *)

Module Py.

(** Exceptions that the modelled code can raise or that an external call
    may hand back.  All of them derive from [Exception], so a bare
    [except Exception] catches every one of them. *)
Inductive exn : Type :=
| ValueError (msg : string)
| IndexError
| ZeroDivisionError
| FileNotFoundError (path : string)
| OtherError (msg : string).

Inductive result (A : Type) : Type :=
| Ok (a : A)
| Raise (e : exn).
Arguments Ok {A} a.
Arguments Raise {A} e.

Definition is_ok {A} (r : result A) : bool :=
  match r with Ok _ => true | Raise _ => false end.

Definition to_option {A} (r : result A) : option A :=
  match r with Ok a => Some a | Raise _ => None end.

(** [str(n)] for a non-negative integer. *)
Definition str (n : N) : string := pretty n.

(** [sep.join(parts)]. *)
Fixpoint join (sep : string) (parts : list string) : string :=
  match parts with
  | [] => ""
  | [p] => p
  | p :: rest => p +:+ sep +:+ join sep rest
  end.

(** [s[:n]]: the first [n] characters, the whole string when shorter. *)
Fixpoint slice_to (n : nat) (s : string) : string :=
  match n, s with
  | S n', String c s' => String c (slice_to n' s')
  | _, _ => ""
  end.


(** [sub in s] (substring test). *)
Fixpoint contains (sub s : string) : bool :=
  if String.prefix sub s then true
  else match s with
       | "" => false
       | String _ s' => contains sub s'
       end.

(** [s.split(c)] for a one-character separator. *)
Fixpoint split (c : ascii) (s : string) : list string :=
  match s with
  | "" => [""]
  | String a s' =>
      if Ascii.eqb a c then "" :: split c s'
      else match split c s' with
           | [] => [String a ""]
           | w :: ws => String a w :: ws
           end
  end.

(** [os.path.basename(p)]: what follows the last slash. *)
Fixpoint basename (p : string) : string :=
  match p with
  | "" => ""
  | String a p' =>
      if contains "/" p' then basename p'
      else if Ascii.eqb a "/" then p' else p
  end.

(** [s.upper()] on ASCII letters. *)
Definition upper_char (a : ascii) : ascii :=
  let n := nat_of_ascii a in
  if (97 <=? n)%nat && (n <=? 122)%nat then ascii_of_nat (n - 32) else a.
Fixpoint upper (s : string) : string :=
  match s with
  | "" => ""
  | String a s' => String (upper_char a) (upper s')
  end.

(** [max(l)] raises [ValueError] on an empty list. *)
Definition max (l : list N) : result N :=
  match l with
  | [] => Raise (ValueError "max() arg is an empty sequence")
  | x :: xs => Ok (fold_left N.max xs x)
  end.

#[global] Arguments str : simpl never.
#[global] Arguments join : simpl never.
#[global] Arguments slice_to : simpl never.
#[global] Arguments contains : simpl never.
#[global] Arguments split : simpl never.
#[global] Arguments basename : simpl never.
#[global] Arguments upper : simpl never.

(** *** Statements: state passing with exceptions

    A statement of the drivers is a function of the state of the world
    that either returns a value or raises, and leaves a new state. *)
Definition M (S A : Type) : Type := S -> result A * S.

Definition ret {S A} (a : A) : M S A := fun w => (Ok a, w).
Definition bind {S A B} (m : M S A) (k : A -> M S B) : M S B :=
  fun w => match m w with
           | (Ok a, w') => k a w'
           | (Raise e, w') => (Raise e, w')
           end.
Definition raise {S A} (e : exn) : M S A := fun w => (Raise e, w).
Definition lift {S A} (r : result A) : M S A := fun w => (r, w).

Declare Scope py_scope.
Delimit Scope py_scope with py.
Notation "x <- c1 ;; c2" := (bind c1 (fun x => c2))
  (at level 20, c1 at level 99, c2 at level 200) : py_scope.
Notation "c1 ;; c2" := (bind c1 (fun _ => c2))
  (at level 100, c2 at level 200, right associativity) : py_scope.
Open Scope py_scope.

(** [try: m except Exception as e: handler(e)]. *)
Definition try_except {S A} (m : M S A) (handler : exn -> M S A) : M S A :=
  fun w => match m w with
           | (Ok a, w') => (Ok a, w')
           | (Raise e, w') => handler e w'
           end.

(** [for x in l: body]. *)
Fixpoint for_each {S A} (l : list A) (body : A -> M S unit) : M S unit :=
  match l with
  | [] => ret tt
  | x :: l' => body x ;; for_each l' body
  end.

(** A [for] loop whose body updates local variables, carried in [acc],
    and may [break]. *)
Inductive flow : Type := Continue | Break.

Fixpoint for_each_break {S A L} (l : list A) (acc : L)
    (body : A -> L -> M S (flow * L)) : M S L :=
  match l with
  | [] => ret acc
  | x :: l' =>
      r <- body x acc ;;
      match r with
      | (Break, acc') => ret acc'
      | (Continue, acc') => for_each_break l' acc' body
      end
  end.

End Py.

(** ** [itertools.product]

    The drivers call [product] on three, four or six argument lists.  It is
    embedded once, for any number of pools, after the reference
    implementation given in the Python documentation:
<<
    result = [[]]
    for pool in pools:
        result = [x+[y] for x in result for y in pool]
>>
    *)

Module Itertools.
Section Product.
Context {A : Type}.

Definition extend (result : list (list A)) (pool : list A) : list (list A) :=
  flat_map (fun x => map (fun y => x ++ [y]) pool) result.

Definition product (pools : list (list A)) : list (list A) :=
  fold_left extend pools [[]].

(** The tuple that takes, on every axis, the candidate at the given
    position. *)
Fixpoint select (pools : list (list A)) (idx : list nat) : option (list A) :=
  match pools, idx with
  | [], [] => Some []
  | pool :: pools', i :: idx' =>
      match nth_error pool i, select pools' idx' with
      | Some x, Some t => Some (x :: t)
      | _, _ => None
      end
  | _, _ => None
  end.
End Product.

#[global] Arguments product : simpl never.

(** Number of tuples of a sweep whose axes have [ks] candidates. *)
Definition count (ks : list nat) : nat := fold_right Nat.mul 1 ks.

(** Mixed-radix digits of a position, first axis most significant. *)
Fixpoint digits (ks : list nat) (i : nat) : list nat :=
  match ks with
  | [] => []
  | _ :: ks' => i / count ks' :: digits ks' (i mod count ks')
  end.

(** Strict lexicographic order on index tuples. *)
Inductive lex_lt : list nat -> list nat -> Prop :=
| lex_lt_head a b s t : a < b -> lex_lt (a :: s) (b :: t)
| lex_lt_tail a s t : lex_lt s t -> lex_lt (a :: s) (a :: t).

End Itertools.

(** ** The SmartSim experiment object, as the drivers use it

    The drivers talk to the outside world through a SmartSim [Experiment]
    (start and stop of orchestrators and models, status queries, directory
    generation), through SmartRedis clients, the logger and the file system.
    These effects are threaded explicitly through a [World]: a trace of the
    calls made so far, the orchestrators that are up, and the counters that
    index the answers of the environment.  Messages logged at level [info],
    the set-up of the log file and the creation of the experiment directory
    leave no trace here; calls into SmartSim and SmartRedis are taken to
    return normally. *)

Module SmartSim.
Import Py.
Open Scope py_scope.

Inductive status : Type :=
| STATUS_COMPLETED
| STATUS_FAILED
| STATUS_CANCELLED
| STATUS_RUNNING
| STATUS_PAUSED
| STATUS_NEW
| STATUS_NEVER_STARTED.

#[global] Instance status_eq_dec : EqDecision status.
Proof. solve_decision. Defined.

Record Experiment : Type := mkExperiment {
  exp_name : string;
  exp_path : string;
  exp_launcher : string
}.

Record Orchestrator : Type := mkOrchestrator {
  db_id : nat;
  db_port : N;
  db_node_count : N;
  db_batch : bool;
  db_interface : option string;
  db_threads_per_queue : option N;
  db_walltime : option string;
  db_batch_args : list (string * option string);
  db_hosts : list string;
  db_cpus : option N
}.

Record Model : Type := mkModel {
  model_name : string;
  model_path : string;
  model_exe : string;
  model_exe_args : list string;
  model_alloc : option string;
  model_nodes : option N;
  model_tasks : option N;
  model_tasks_per_node : option N;
  model_env : list (string * string);
  model_files : list string;
  model_colocated_port : option N
}.

(** Content of a [run.cfg]: sections, each a list of key/value pairs. *)
Definition RunConfig : Type := list (string * list (string * string)).

Inductive event : Type :=
| GetAllocation (nodes : N)
| ReleaseAllocation (alloc : string)
| GenerateDb (id : nat)
| StartDb (db : Orchestrator)
| StopDb (id : nat)
| Generate (path : string)
| WriteRunConfig (config_path : string) (cfg : RunConfig)
| ClientCall (address : string) (cluster : bool) (call key device : string)
| Launch (m : Model) (dbs : list nat)
| Status (name : string) (st : status)
| LogError (msg : string)
| CollectStats (names : list string).

Record World : Type := mkWorld {
  trace : list event;            (* calls made so far, oldest first *)
  active : list nat;             (* orchestrators started and not stopped *)
  next_db : nat;                 (* orchestrators created so far *)
  queries : nat;                 (* status queries answered so far *)
  next_uuid : nat;               (* calls to uuid4 so far *)
  files : gmap string RunConfig  (* the run.cfg files on disk *)
}.

Definition init : World := mkWorld [] [] 0 0 0 ∅.

(** The drivers run in the state and exception monad over [World]. *)
Abbreviation M := (Py.M World).

Definition emit (e : event) : M unit :=
  fun w => (Ok tt, mkWorld (trace w ++ [e]) (active w) (next_db w)
                           (queries w) (next_uuid w) (files w)).

Definition logger_error (msg : string) : M unit := emit (LogError msg).

(** A new orchestrator object; it gets the next free identity. *)
Definition new_orchestrator (port nodes : N) (batch : bool)
    (interface : option string) (tpq : option N) : M Orchestrator :=
  fun w => (Ok (mkOrchestrator (next_db w) port nodes batch interface tpq
                               None [] [] None),
            mkWorld (trace w) (active w) (S (next_db w))
                    (queries w) (next_uuid w) (files w)).

Definition set_walltime (t : string) (db : Orchestrator) : Orchestrator :=
  mkOrchestrator (db_id db) (db_port db) (db_node_count db) (db_batch db)
    (db_interface db) (db_threads_per_queue db) (Some t)
    (db_batch_args db) (db_hosts db) (db_cpus db).
Definition set_batch_arg (k : string) (v : option string)
    (db : Orchestrator) : Orchestrator :=
  mkOrchestrator (db_id db) (db_port db) (db_node_count db) (db_batch db)
    (db_interface db) (db_threads_per_queue db) (db_walltime db)
    (db_batch_args db ++ [(k, v)]) (db_hosts db) (db_cpus db).
Definition set_hosts (hosts : list string) (db : Orchestrator) : Orchestrator :=
  mkOrchestrator (db_id db) (db_port db) (db_node_count db) (db_batch db)
    (db_interface db) (db_threads_per_queue db) (db_walltime db)
    (db_batch_args db) hosts (db_cpus db).
Definition set_cpus (cpus : N) (db : Orchestrator) : Orchestrator :=
  mkOrchestrator (db_id db) (db_port db) (db_node_count db) (db_batch db)
    (db_interface db) (db_threads_per_queue db) (db_walltime db)
    (db_batch_args db) (db_hosts db) (Some cpus).

(** [exp.generate(db)] and [exp.start(db)]. *)
Definition exp_generate_db (db : Orchestrator) : M unit :=
  emit (GenerateDb (db_id db)).
Definition exp_start_db (db : Orchestrator) : M unit :=
  fun w => (Ok tt, mkWorld (trace w ++ [StartDb db]) (active w ++ [db_id db])
                           (next_db w) (queries w) (next_uuid w) (files w)).

(** [exp.stop(db)]. *)
Definition exp_stop (db : Orchestrator) : M unit :=
  fun w => (Ok tt,
            mkWorld (trace w ++ [StopDb (db_id db)])
                    (filter (fun i => i ≠ db_id db) (active w))
                    (next_db w) (queries w) (next_uuid w) (files w)).

(** [exp.create_model(name, settings)]: the model lives in the directory
    of that name under the experiment. *)
Definition exp_create_model (exp : Experiment) (name : string)
    (settings : Model) : Model :=
  mkModel name (exp_path exp +:+ "/" +:+ name) (model_exe settings)
    (model_exe_args settings) (model_alloc settings) (model_nodes settings)
    (model_tasks settings) (model_tasks_per_node settings)
    (model_env settings) (model_files settings)
    (model_colocated_port settings).

Definition config_path (path : string) : string := path +:+ "/run.cfg".

(** [exp.generate(model, overwrite=True)]: the directory of the model is
    created afresh, so a [run.cfg] left there by an earlier run is gone. *)
Definition exp_generate (m : Model) : M unit :=
  fun w => (Ok tt,
            mkWorld (trace w ++ [Generate (model_path m)]) (active w)
                    (next_db w) (queries w) (next_uuid w)
                    (delete (config_path (model_path m)) (files w))).

(** [exp.start(model)]: the job is submitted and, [block] being true by
    default, the call returns once it reached a final status.  The event
    records which orchestrators were up at that time. *)
Definition exp_start (m : Model) : M unit :=
  fun w => (Ok tt, mkWorld (trace w ++ [Launch m (active w)]) (active w)
                           (next_db w) (queries w) (next_uuid w) (files w)).

Definition write_file (cpath : string) (cfg : RunConfig) : M unit :=
  fun w => (Ok tt, mkWorld (trace w ++ [WriteRunConfig cpath cfg]) (active w)
                           (next_db w) (queries w) (next_uuid w)
                           (<[cpath := cfg]> (files w))).

(** Run settings before a model is made of them. *)
Definition settings (exe : string) (args : list string)
    (alloc : option string) : Model :=
  mkModel "" "" exe args alloc None None None [] [] None.
Definition set_nodes (n : N) (m : Model) : Model :=
  mkModel (model_name m) (model_path m) (model_exe m) (model_exe_args m)
    (model_alloc m) (Some n) (model_tasks m) (model_tasks_per_node m)
    (model_env m) (model_files m) (model_colocated_port m).
Definition set_tasks (n : N) (m : Model) : Model :=
  mkModel (model_name m) (model_path m) (model_exe m) (model_exe_args m)
    (model_alloc m) (model_nodes m) (Some n) (model_tasks_per_node m)
    (model_env m) (model_files m) (model_colocated_port m).
Definition set_tasks_per_node (n : N) (m : Model) : Model :=
  mkModel (model_name m) (model_path m) (model_exe m) (model_exe_args m)
    (model_alloc m) (model_nodes m) (model_tasks m) (Some n)
    (model_env m) (model_files m) (model_colocated_port m).
Definition update_env (env : list (string * string)) (m : Model) : Model :=
  mkModel (model_name m) (model_path m) (model_exe m) (model_exe_args m)
    (model_alloc m) (model_nodes m) (model_tasks m) (model_tasks_per_node m)
    (model_env m ++ env) (model_files m) (model_colocated_port m).
Definition attach_generator_files (to_copy : list string) (m : Model) : Model :=
  mkModel (model_name m) (model_path m) (model_exe m) (model_exe_args m)
    (model_alloc m) (model_nodes m) (model_tasks m) (model_tasks_per_node m)
    (model_env m) (model_files m ++ to_copy) (model_colocated_port m).
Definition colocate_db (port : N) (m : Model) : Model :=
  mkModel (model_name m) (model_path m) (model_exe m) (model_exe_args m)
    (model_alloc m) (model_nodes m) (model_tasks m) (model_tasks_per_node m)
    (model_env m) (model_files m) (Some port).

(** What the environment decides: the strings handed out by [uuid4], the
    final status the scheduler reports at each status query, the address
    of a running orchestrator. *)
Record Env : Type := mkEnv {
  uuid4 : nat -> string;
  scheduler : nat -> status;
  address_of : nat -> string;
  allocation_id : string;
  cwd : string;
  smartsim_version : string;
  redis_exe : string;
  today : string
}.

Section WithEnv.
Variable env : Env.

(** [exp.get_status(model)[0]]. *)
Definition exp_get_status (m : Model) : M status :=
  fun w => let st := scheduler env (queries w) in
           (Ok st, mkWorld (trace w ++ [Status (model_name m) st])
                           (active w) (next_db w) (S (queries w))
                           (next_uuid w) (files w)).

Definition str_uuid4 : M string :=
  fun w => (Ok (uuid4 env (next_uuid w)),
            mkWorld (trace w) (active w) (next_db w) (queries w)
                    (S (next_uuid w)) (files w)).
End WithEnv.

End SmartSim.

(** ** [driver.py] *)

Module Driver.
Import Py SmartSim Itertools.
Open Scope py_scope.

Section WithEnv.
Variable env : Env.

Definition resnet_model : string := "./imagenet/resnet50.pt".

(** [Experiment(name=exp_name, launcher=launcher)]. *)
Definition Experiment_ (exp_name launcher : string) : Experiment :=
  mkExperiment exp_name (cwd env +:+ "/" +:+ exp_name) launcher.

Definition _get_uuid : M string :=
  uid <- str_uuid4 env ;;
  ret (slice_to 4 uid).

Definition _get_db_backend : string := basename (redis_exe env).

(** [write_run_config(path, **kwargs)].  [ConfigParser] turns every value
    into its [str]; the callers below pass the values in that form. *)
Definition write_run_config (path : string)
    (kwargs : list (string * string)) : M unit :=
  let name := basename path in
  let config : RunConfig :=
    [ ("run", [ ("name", name);
                ("path", path);
                ("smartsim_version", smartsim_version env);
                ("smartredis_version", "0.3.1");
                ("db", _get_db_backend);
                ("date", today env) ]);
      ("attributes", kwargs) ] in
  write_file (config_path path) config.

Definition start_database (exp : Experiment) (port nodes cpus : N)
    (tpq : option N) (net_ifname : string) (run_as_batch : bool)
    (batch_args : list (string * option string)) (hosts : list string)
    : M Orchestrator :=
  db <- new_orchestrator port nodes run_as_batch (Some net_ifname) tpq ;;
  let db :=
    if run_as_batch
    then fold_left (fun d kv => set_batch_arg (fst kv) (snd kv) d)
                   batch_args (set_walltime "00:10:00" db)
    else db in
  let db := match hosts with [] => db | _ :: _ => set_hosts hosts db end in
  let db := set_cpus cpus db in
  exp_generate_db db ;;
  exp_start_db db ;;
  ret db.

Definition enumerate {A} (l : list A) : list (nat * A) :=
  combine (seq 0 (length l)) l.

Definition setup_resnet (model device : string) (num_devices batch_size : N)
    (address : string) (cluster : bool) : M unit :=
  if String.eqb device "GPU" && (1 <? num_devices)%N then
    emit (ClientCall address cluster "set_model_from_file_multigpu"
                     "resnet_model" device) ;;
    emit (ClientCall address cluster "set_script_from_file_multigpu"
                     "resnet_script" device)
  else if (0 <? num_devices)%N then
    ret tt
  else
    for_each (enumerate [upper device]) (fun id =>
      let i := N.of_nat (fst id) in
      let dev := snd id in
      emit (ClientCall address cluster "set_model_from_file"
                       ("resnet_model_" +:+ str i) dev) ;;
      emit (ClientCall address cluster "set_script_from_file"
                       ("resnet_script_" +:+ str i) dev)).

Definition inference_files : list string :=
  [ "./imagenet/cat.raw"; "./imagenet/resnet50.pt";
    "./imagenet/data_processing_script.txt" ].

Definition create_inference_session (exp : Experiment)
    (nodes tasks db_nodes db_cpus db_tpq batch_size : N) (device : string)
    (num_devices : N) : M Model :=
  let cluster := if (1 <? db_nodes)%N then 1%N else 0%N in
  let run_settings :=
    settings "./cpp-inference/build/run_resnet_inference" [] None in
  let run_settings := set_nodes nodes run_settings in
  let run_settings := set_tasks_per_node tasks run_settings in
  let run_settings := set_tasks (tasks * nodes) run_settings in
  let run_settings := update_env
    [ ("SS_SET_MODEL", "0");
      ("SS_CLUSTER", str cluster);
      ("SS_NUM_DEVICES", str num_devices);
      ("SS_BATCH_SIZE", str batch_size);
      ("SS_DEVICE", device);
      ("SS_CLIENT_COUNT", str tasks) ] run_settings in
  uid <- _get_uuid ;;
  let name := join "-"
    [ "infer-sess";
      "N" +:+ str nodes;
      "T" +:+ str tasks;
      "DBN" +:+ str db_nodes;
      "DBC" +:+ str db_cpus;
      "DBTPQ" +:+ str db_tpq;
      uid ] in
  let model := exp_create_model exp name run_settings in
  let model := attach_generator_files inference_files model in
  exp_generate model ;;
  write_run_config (model_path model)
    [ ("colocated", "0");
      ("client_total", str (tasks * nodes));
      ("client_per_node", str tasks);
      ("client_nodes", str nodes);
      ("database_nodes", str db_nodes);
      ("database_cpus", str db_cpus);
      ("database_threads_per_queue", str db_tpq);
      ("batch_size", str batch_size);
      ("device", device);
      ("num_devices", str num_devices) ] ;;
  ret model.

(** [pin_app_cpus] is a Python [bool]; it is carried as the integer it
    is ([False] is [0]), which is also what [int(pin_app_cpus)] gives. *)
Definition create_colocated_inference_session (exp : Experiment)
    (nodes tasks pin_app_cpus : N) (net_ifname : string)
    (db_cpus db_tpq db_port batch_size : N) (device : string)
    (num_devices : N) : M Model :=
  let run_settings :=
    settings "./cpp-inference/build/run_resnet_inference" [] None in
  let run_settings := set_nodes nodes run_settings in
  let run_settings := set_tasks_per_node tasks run_settings in
  let run_settings := update_env
    [ ("SS_SET_MODEL", "1");
      ("SS_CLUSTER", "0");
      ("SS_BATCH_SIZE", str batch_size);
      ("SS_DEVICE", device);
      ("SS_CLIENT_COUNT", str tasks);
      ("SS_NUM_DEVICES", str num_devices) ] run_settings in
  uid <- _get_uuid ;;
  let name := join "-"
    [ "infer-sess-colo";
      "N" +:+ str nodes;
      "T" +:+ str tasks;
      "DBN" +:+ str nodes;
      "DBC" +:+ str db_cpus;
      "DBTPQ" +:+ str db_tpq;
      uid ] in
  let model := exp_create_model exp name run_settings in
  let model := attach_generator_files inference_files model in
  let model := colocate_db db_port model in
  exp_generate model ;;
  write_run_config (model_path model)
    [ ("colocated", "1");
      ("pin_app_cpus", str pin_app_cpus);
      ("client_total", str (tasks * nodes));
      ("client_per_node", str tasks);
      ("client_nodes", str nodes);
      ("database_nodes", str nodes);
      ("database_cpus", str db_cpus);
      ("database_threads_per_queue", str db_tpq);
      ("batch_size", str batch_size);
      ("device", device);
      ("num_devices", str num_devices) ] ;;
  ret model.

(** The name given to a throughput session; [uid] is what [_get_uuid]
    returned. *)
Definition throughput_session_name
    (nodes tasks db_nodes iterations _bytes : N) (uid : string) : string :=
  join "-"
    [ "throughput-sess";
      "N" +:+ str nodes;
      "T" +:+ str tasks;
      "DBN" +:+ str db_nodes;
      "ITER" +:+ str iterations;
      "TB" +:+ str _bytes;
      uid ].

Definition create_throughput_session (exp : Experiment)
    (nodes tasks db_nodes db_cpus iterations _bytes : N) : M Model :=
  let settings :=
    settings "./cpp-throughput/build/throughput" [str _bytes] None in
  let settings := set_tasks (nodes * tasks) settings in
  let settings := set_tasks_per_node tasks settings in
  let settings := update_env [("SS_ITERATIONS", str iterations)] settings in
  let settings :=
    if String.eqb (exp_launcher exp) "slurm"
    then set_nodes nodes settings else settings in
  uid <- _get_uuid ;;
  let name :=
    throughput_session_name nodes tasks db_nodes iterations _bytes uid in
  let model := exp_create_model exp name settings in
  exp_generate model ;;
  write_run_config (model_path model)
    [ ("client_total", str (tasks * nodes));
      ("client_per_node", str tasks);
      ("client_nodes", str nodes);
      ("database_nodes", str db_nodes);
      ("database_cpus", str db_cpus);
      ("iterations", str iterations);
      ("tensor_bytes", str _bytes) ] ;;
  ret model.

Definition unpack_error {A} : M A :=
  raise (ValueError "not enough values to unpack").

(** One turn of the loop of [inference_standard]. *)
Definition inference_standard_run (exp : Experiment)
    (run_db_as_batch : bool) (batch_args : list (string * option string))
    (db_hosts : list string) (db_port : N) (device : string)
    (num_devices : N) (net_ifname : string) (perm : list N) : M unit :=
  match perm with
  | [c_nodes; cpn; dbn; dbc; dbtpq; batch] =>
      db <- start_database exp db_port dbn dbc (Some dbtpq) net_ifname
                           run_db_as_batch batch_args db_hosts ;;
      infer_session <- create_inference_session exp c_nodes cpn dbn dbc
                           dbtpq batch device num_devices ;;
      let address := address_of env (db_id db) in
      setup_resnet resnet_model device num_devices batch address
                   (1 <? dbn)%N ;;
      exp_start infer_session ;;
      exp_stop db ;;
      stat <- exp_get_status env infer_session ;;
      if bool_decide (stat ≠ STATUS_COMPLETED)
      then logger_error ("One of the scaling tests failed "
                         +:+ model_name infer_session)
      else ret tt
  | _ => unpack_error
  end.

Definition inference_standard (exp_name launcher : string)
    (run_db_as_batch : bool) (batch_args : list (string * option string))
    (db_hosts : list string) (db_nodes db_cpus db_tpq : list N)
    (db_port : N) (batch_size : list N) (device : string)
    (num_devices : N) (net_ifname : string)
    (clients_per_node client_nodes : list N) : M unit :=
  let exp := Experiment_ exp_name launcher in
  let perms :=
    product [client_nodes; clients_per_node; db_nodes; db_cpus; db_tpq;
             batch_size] in
  for_each perms
    (inference_standard_run exp run_db_as_batch batch_args db_hosts db_port
                            device num_devices net_ifname).

(** One turn of the loop of [inference_colocated]. *)
Definition inference_colocated_run (exp : Experiment) (db_port : N)
    (device : string) (num_devices : N) (net_ifname : string)
    (perm : list N) : M unit :=
  match perm with
  | [c_nodes; cpn; dbc; dbtpq; batch; pin_app] =>
      infer_session <- create_colocated_inference_session exp c_nodes cpn
                           pin_app net_ifname dbc dbtpq db_port batch
                           device num_devices ;;
      exp_start infer_session ;;
      stat <- exp_get_status env infer_session ;;
      if bool_decide (stat ≠ STATUS_COMPLETED)
      then logger_error ("One of the scaling tests failed "
                         +:+ model_name infer_session)
      else ret tt
  | _ => unpack_error
  end.


(** One turn of the inner loop of [throughput_scaling]. *)
Definition throughput_scaling_run (exp : Experiment)
    (db_node_count db_cpus iterations : N) (perm : list N) : M unit :=
  match perm with
  | [c_nodes; cpn; _bytes] =>
      throughput_session <- create_throughput_session exp c_nodes cpn
                              db_node_count db_cpus iterations _bytes ;;
      exp_start throughput_session ;;
      stat <- exp_get_status env throughput_session ;;
      if bool_decide (stat ≠ STATUS_COMPLETED)
      then logger_error ("ERROR: One of the scaling tests failed "
                         +:+ model_name throughput_session)
      else ret tt
  | _ => unpack_error
  end.

(** One turn of the outer loop of [throughput_scaling]: the database is
    started once, all permutations are run, the database is stopped. *)
Definition throughput_scaling_group (exp : Experiment)
    (run_db_as_batch : bool) (batch_args : list (string * option string))
    (db_hosts : list string) (db_cpus db_port : N) (net_ifname : string)
    (clients_per_node client_nodes : list N) (iterations : N)
    (tensor_bytes : list N) (db_node_count : N) : M unit :=
  db <- start_database exp db_port db_node_count db_cpus None net_ifname
                       run_db_as_batch batch_args db_hosts ;;
  let perms := product [client_nodes; clients_per_node; tensor_bytes] in
  for_each perms
    (throughput_scaling_run exp db_node_count db_cpus iterations) ;;
  exp_stop db.

Definition throughput_scaling (exp_name launcher : string)
    (run_db_as_batch : bool) (batch_args : list (string * option string))
    (db_hosts : list string) (db_nodes : list N) (db_cpus db_port : N)
    (net_ifname : string) (clients_per_node client_nodes : list N)
    (iterations : N) (tensor_bytes : list N) : M unit :=
  let exp := Experiment_ exp_name launcher in
  for_each db_nodes
    (throughput_scaling_group exp run_db_as_batch batch_args db_hosts db_cpus
       db_port net_ifname clients_per_node client_nodes iterations
       tensor_bytes).

End WithEnv.

(** *** Result aggregation

    [process_scaling_results] works on the file system through
    [os.listdir], [process_results.create_run_csv] and pandas.  These are
    gathered in a [Backend]; the function is embedded once for any of
    them.  A path built with [pathlib] or [os.path.join] is the list of
    its components. *)

Definition Path : Type := list string.

(** A data frame: its rows, each a list of column/value pairs. *)
Definition DataFrame : Type := list (list (string * string)).

Record Backend : Type := mkBackend {
  FS : Type;
  listdir : string -> FS -> result (list string);
  create_run_csv : Path -> bool -> FS -> result unit * FS;
  read_csv : Path -> FS -> result DataFrame;
  to_csv : Path -> DataFrame -> FS -> FS
}.

Inductive agg_event : Type :=
| CreateRunCsv (run_path : Path) (delete_previous : bool)
| ReadCsv (results_path : Path)
| ToCsv (csv_path : Path)
| LogWarning (msg : string)
| LogException (e : exn)
| LogErrorMsg (msg : string).

Record AggWorld (B : Backend) : Type := mkAggWorld {
  fs : FS B;
  log : list agg_event
}.
Arguments mkAggWorld {B} fs log.
Arguments fs {B} a.
Arguments log {B} a.

(** [pd.concat(dataframes, join="outer")]: the rows of all frames, every
    row keeping its own columns; pandas refuses an empty list. *)
Definition pd_concat (dataframes : list DataFrame) : result DataFrame :=
  match dataframes with
  | [] => Raise (ValueError "No objects to concatenate")
  | _ :: _ => Ok (concat dataframes)
  end.

Section Aggregation.
Variable B : Backend.
Variable date : string.

Definition record (e : agg_event) : Py.M (AggWorld B) unit :=
  fun w => (Ok tt, mkAggWorld (fs w) (log w ++ [e])).

Definition os_listdir (dir : string) : Py.M (AggWorld B) (list string) :=
  fun w => (listdir B dir (fs w), w).

Definition call_create_run_csv (run_path : Path) (delete_previous : bool)
    : Py.M (AggWorld B) unit :=
  fun w => let r := create_run_csv B run_path delete_previous (fs w) in
           (fst r,
            mkAggWorld (snd r)
                       (log w ++ [CreateRunCsv run_path delete_previous])).

Definition pd_read_csv (results_path : Path)
    : Py.M (AggWorld B) DataFrame :=
  fun w => (read_csv B results_path (fs w),
            mkAggWorld (fs w) (log w ++ [ReadCsv results_path])).

Definition df_to_csv (csv_path : Path) (df : DataFrame)
    : Py.M (AggWorld B) unit :=
  fun w => (Ok tt, mkAggWorld (to_csv B csv_path df (fs w))
                              (log w ++ [ToCsv csv_path])).

Definition run_path_of (scaling_dir run : string) : Path :=
  [scaling_dir; run].
Definition results_path_of (scaling_dir run : string) : Path :=
  [scaling_dir; "results"; run; run +:+ ".csv"].
Definition combined_path_of (scaling_dir : string) : Path :=
  [scaling_dir; "results";
   basename scaling_dir +:+ "-" +:+ date +:+ ".csv"].

Definition is_run (d : string) : bool := contains "sess" d.

Definition process_scaling_results (scaling_dir : string)
    (overwrite : bool) : Py.M (AggWorld B) unit :=
  entries <- os_listdir scaling_dir ;;
  let runs := List.filter is_run entries in
  try_except
    (for_each runs (fun run =>
       try_except
         (let run_path := run_path_of scaling_dir run in
          call_create_run_csv run_path overwrite)
         (fun e =>
            record (LogWarning ("Skipping " +:+ run
                                +:+ " could not process results")) ;;
            record (LogException e))) ;;
     dataframes <- for_each_break runs [] (fun run dataframes =>
       try_except
         (let results_path := results_path_of scaling_dir run in
          run_df <- pd_read_csv results_path ;;
          ret (Continue, dataframes ++ [run_df]))
         (fun e =>
            record (LogWarning ("Skipping " +:+ run
                                +:+ " could not read results csv")) ;;
            record (LogException e) ;;
            ret (Continue, dataframes))) ;;
     final_df <- lift (pd_concat dataframes) ;;
     let csv_path := combined_path_of scaling_dir in
     df_to_csv csv_path final_df)
    (fun e =>
       record (LogErrorMsg "Could not preprocess results") ;;
       raise e).

End Aggregation.

(** *** The extraction step *)

(** The disk of the extraction model: its files, and the list of the run
    directories whose raw files were read, which measures the extraction
    work done. *)
Record Disk : Type := mkDisk {
  disk_files : gmap Path string;
  extracted : list Path
}.

Definition parent (p : Path) : Path := removelast p.
Definition name_of (p : Path) : string := List.last p "".

Section SpecModel.
Variable raw : Path -> result string.
Variable entries : list string.
Variable parse_csv : string -> result DataFrame.
Variable render_csv : DataFrame -> string.

(** Modelled from the spec: [process_results.create_run_csv], which
    [driver.py] imports but whose source is not among the files at hand.
    The specification describes it as follows: the raw metric files of the
    run directory are read and a per-run CSV, named after the run, is
    written under the results directory; when that CSV already exists and
    overwriting is not requested, the run is skipped.  Reading the raw
    files and deriving the text of the CSV is [raw]; it fails when the
    files are missing or malformed. *)
Definition create_run_csv_spec (run_path : Path) (delete_previous : bool)
    (d : Disk) : result unit * Disk :=
  let run := name_of run_path in
  let results_path := parent run_path ++ ["results"; run; run +:+ ".csv"] in
  if bool_decide (is_Some (disk_files d !! results_path))
     && negb delete_previous
  then (Ok tt, d)
  else
    match raw run_path with
    | Ok content =>
        (Ok tt, mkDisk (<[results_path := content]> (disk_files d))
                       (extracted d ++ [run_path]))
    | Raise e =>
        (Raise e, mkDisk (disk_files d) (extracted d ++ [run_path]))
    end.

(** The backend over [Disk]: the listing of the sweep directory is
    [entries], a CSV is parsed by [parse_csv] and a frame is written as
    [render_csv] gives it. *)
Definition disk_backend : Backend :=
  mkBackend Disk
    (fun _ _ => Ok entries)
    create_run_csv_spec
    (fun p d => match disk_files d !! p with
                | Some content => parse_csv content
                | None => Raise (FileNotFoundError (join "/" p))
                end)
    (fun p df d => mkDisk (<[p := render_csv df]> (disk_files d))
                          (extracted d)).
End SpecModel.

End Driver.

(** ** [cpp-throughput/driver.py] *)

Module CppThroughput.
Import Py SmartSim Itertools.
Open Scope py_scope.

Section WithEnv.
Variable env : Env.

(** The experiment is a global of the module. *)
Definition exp : Experiment :=
  mkExperiment "throughput-scaling-tests"
               (cwd env +:+ "/throughput-scaling-tests") "slurm".

Definition start_database (port nodes cpus tpq : N) : M Orchestrator :=
  db <- new_orchestrator port nodes true None (Some tpq) ;;
  let db := set_cpus cpus db in
  let db := set_walltime "1:00:00" db in
  let db := set_batch_arg "exclusive" None db in
  let db := set_batch_arg "C" (Some "P100") db in
  exp_generate_db db ;;
  exp_start_db db ;;
  ret db.

Definition throughput_session_name (nodes tasks db _bytes : N) : string :=
  join "-" ["throughput-sess"; str nodes; str tasks; str db; str _bytes].

Definition create_throughput_session (nodes tasks db _bytes : N)
    (allocation : string) : M Model :=
  let srun := settings "./build/throughput" [str _bytes] (Some allocation) in
  let srun := set_nodes nodes srun in
  let srun := set_tasks_per_node tasks srun in
  let name := throughput_session_name nodes tasks db _bytes in
  let model := exp_create_model exp name srun in
  let model := attach_generator_files ["./process_results.py"] model in
  exp_generate model ;;
  ret model.

Definition create_post_process (model_path name allocation : string)
    : Model :=
  let exe_args :=
    "process_results.py --path=" +:+ model_path +:+ " --name=" +:+ name in
  let srun := settings "python" [exe_args] (Some allocation) in
  let srun := set_nodes 1 srun in
  let srun := set_tasks 1 srun in
  let pp_name := join "-" ["post"; name] in
  mkModel pp_name model_path (model_exe srun) (model_exe_args srun)
    (model_alloc srun) (model_nodes srun) (model_tasks srun)
    (model_tasks_per_node srun) (model_env srun) (model_files srun)
    (model_colocated_port srun).

Definition slurm_get_allocation (nodes : N) : M string :=
  emit (GetAllocation nodes) ;;
  ret (allocation_id env).

Definition slurm_release_allocation (allocation : string) : M unit :=
  emit (ReleaseAllocation allocation).

Definition index_error {A} : M A := raise IndexError.

(** One turn of the loop over the permutations; [data_locations] is the
    list the loop appends to.  The address joined from [db.hosts] and
    [db.ports] is not used after it is computed. *)
Definition throughput_step (db_cpus db_tpq db_port : N)
    (allocation : string) (perm : list N)
    (data_locations : list (string * string * list N))
    : M (flow * list (string * string * list N)) :=
  match perm with
  | p0 :: p1 :: p2 :: p3 :: _ =>
      let db_node_count := p2 in
      db <- start_database db_port db_node_count db_cpus db_tpq ;;
      scale_session <- create_throughput_session p0 p1 p2 p3 allocation ;;
      exp_start scale_session ;;
      status <- exp_get_status env scale_session ;;
      if bool_decide (status ≠ STATUS_COMPLETED) then
        logger_error ("ERROR: One of the scaling tests failed "
                      +:+ model_name scale_session) ;;
        ret (Break, data_locations)
      else
        let post := create_post_process (model_path scale_session)
                                        (model_name scale_session)
                                        allocation in
        let data_locations :=
          data_locations
          ++ [(model_path scale_session, model_name scale_session, perm)] in
        exp_start post ;;
        exp_stop db ;;
        ret (Continue, data_locations)
  | _ => index_error
  end.

(** The statistics block ([get_stats], [exp.summary], the merge and the
    write of the summary) sits in a [try] whose handler catches every
    exception and only prints a message: whatever happens there, control
    reaches the statement that follows. *)
Definition collect_stats (data_locations : list (string * string * list N))
    : M unit :=
  emit (CollectStats (map (fun d => snd (fst d)) data_locations)).

Definition throughput (db_nodes : list N) (db_cpus db_tpq db_port : N)
    (device : string) (clients_per_node client_nodes tensor_bytes : list N)
    : M unit :=
  nodes <- lift (Py.max client_nodes) ;;
  allocation <- slurm_get_allocation nodes ;;
  let perms :=
    product [client_nodes; clients_per_node; db_nodes; tensor_bytes] in
  data_locations <- for_each_break perms []
                      (throughput_step db_cpus db_tpq db_port allocation) ;;
  collect_stats data_locations ;;
  slurm_release_allocation allocation.

End WithEnv.
End CppThroughput.

(** ** [throughput-plotter.py]: reading the rank files of one run

    Python floats are IEEE 754 binary64 numbers, as are the primitive
    floats used here. *)

Module Plotter.
Import Py.

Definition threads : Z := 36.
Definition loop_iters : Z := 100.
Definition sizes : list Z :=
  [1024; 8192; 16384; 32768; 65536; 131072; 262144; 524288; 1024000;
   2048000; 4096000]%Z.

(** The float an integer is converted to when it meets a float in an
    arithmetic operation.  The conversion is exact below [2^53] in absolute
    value, which covers every product of a size and an iteration count of
    the plotter; it is not meant for integers of [2^63] and more. *)
Definition float_of_int (z : Z) : float :=
  if (z <? 0)%Z
  then PrimFloat.opp (PrimFloat.of_uint63 (Uint63.of_Z (- z)))
  else PrimFloat.of_uint63 (Uint63.of_Z z).

(** [size*loop_iters/t/1e9]; the product is taken on integers. *)
Definition speed (size loop_iters : Z) (t : float) : float :=
  PrimFloat.div (PrimFloat.div (float_of_int (size * loop_iters)) t)
                1000000000%float.

Section RankFiles.
(** [float(s)], which raises [ValueError] on a string that is no
    number. *)
Variable float_of_string : string -> option float.

(** The body of [for i, line in enumerate(f)]. *)
Definition line_step (size : Z) (function_times : gmap string (list float))
    (line : string) : result (gmap string (list float)) :=
  let vals := split "," line in
  match vals !! 1%nat with
  | None => Raise IndexError
  | Some label =>
      match function_times !! label with
      | None => Ok function_times
      | Some samples =>
          match vals !! 2%nat with
          | None => Raise IndexError
          | Some field =>
              match float_of_string field with
              | None => Raise (ValueError "could not convert string to float")
              | Some t =>
                  if PrimFloat.eqb t 0%float then Raise ZeroDivisionError
                  else
                    let speed := speed size loop_iters t in
                    Ok (<[label := samples ++ [speed]]> function_times)
              end
          end
      end
  end.

Fixpoint read_lines (size : Z) (function_times : gmap string (list float))
    (lines : list string) : result (gmap string (list float)) :=
  match lines with
  | [] => Ok function_times
  | line :: rest =>
      match line_step size function_times line with
      | Ok function_times' => read_lines size function_times' rest
      | Raise e => Raise e
      end
  end.

(** The loop over the files of the run directory; a file is its name
    and its lines. *)
Fixpoint read_files (size : Z) (function_times : gmap string (list float))
    (files : list (string * list string))
    : result (gmap string (list float)) :=
  match files with
  | [] => Ok function_times
  | (file, lines) :: rest =>
      if contains ".csv" file && contains "rank_" file then
        match read_lines size function_times lines with
        | Ok function_times' => read_files size function_times' rest
        | Raise e => Raise e
        end
      else read_files size function_times rest
  end.

Definition initial_times : gmap string (list float) :=
  {[ "loop_time" := [] ]}.
End RankFiles.
End Plotter.

(** ** What is observed of a run of the drivers *)

Module Observe.
Import Py SmartSim.

(** The models handed to [exp.start], in order, and their names. *)
Definition launch_of (e : event) : option Model :=
  match e with Launch m _ => Some m | _ => None end.
Definition launches (t : list event) : list Model := omap launch_of t.

(** The errors written to the log. *)
Definition error_of (e : event) : option string :=
  match e with LogError msg => Some msg | _ => None end.
Definition errors (t : list event) : list string := omap error_of t.

(** The life of the deployments: an orchestrator with so many nodes is
    started, a model is launched while some orchestrators are up, an
    orchestrator is stopped. *)
Inductive deployment_event : Type :=
| DStart (id : nat) (nodes : N)
| DRun (name : string) (dbs : list nat)
| DStop (id : nat).

Definition deployment_of (e : event) : option deployment_event :=
  match e with
  | StartDb db => Some (DStart (db_id db) (db_node_count db))
  | Launch m dbs => Some (DRun (model_name m) dbs)
  | StopDb id => Some (DStop id)
  | _ => None
  end.
Definition deployments (t : list event) : list deployment_event :=
  omap deployment_of t.

(** The events a statement adds to the trace when it starts with the given
    orchestrators up and the given counters. *)
Definition emitted {A} (m : M A) (a : list nat) (db q u : nat) : list event :=
  trace (snd (m (mkWorld [] a db q u ∅))).

(** The [run.cfg] files left on disk by a trace: [exp.generate] with
    [overwrite=True] clears the directory of the model, [write_run_config]
    writes the file. *)
Fixpoint files_after (t : list event) (fs : gmap string RunConfig)
    : gmap string RunConfig :=
  match t with
  | [] => fs
  | Generate p :: t' => files_after t' (delete (config_path p) fs)
  | WriteRunConfig cp cfg :: t' => files_after t' (<[cp := cfg]> fs)
  | _ :: t' => files_after t' fs
  end.



(** A loop body is regular when, started with the orchestrators [a0] up, it
    returns normally with the same orchestrators up, adds to the trace
    events that depend on the counters only, and advances the counters by
    fixed amounts. *)
Record regular {A} (P : A -> Prop) (body : A -> M unit) (a0 : list nat)
    (evs : A -> nat -> nat -> nat -> list event) (ddb dq du : nat) : Prop :=
  mkRegular {
    reg_ok : forall x w, P x -> active w = a0 -> fst (body x w) = Ok tt;
    reg_trace : forall x w, P x -> active w = a0 ->
      trace (snd (body x w))
      = trace w ++ evs x (next_db w) (queries w) (next_uuid w);
    reg_active : forall x w, P x -> active w = a0 ->
      active (snd (body x w)) = a0;
    reg_db : forall x w, P x -> active w = a0 ->
      next_db (snd (body x w)) = next_db w + ddb;
    reg_q : forall x w, P x -> active w = a0 ->
      queries (snd (body x w)) = queries w + dq;
    reg_u : forall x w, P x -> active w = a0 ->
      next_uuid (snd (body x w)) = next_uuid w + du;
    reg_files : forall x w, P x -> active w = a0 ->
      files (snd (body x w))
      = files_after (evs x (next_db w) (queries w) (next_uuid w)) (files w)
  }.


(** The trace of a loop over [l] whose turns add the events [evs]. *)
Definition loop_trace {A} (evs : A -> nat -> nat -> nat -> list event)
    (ddb dq du : nat) (db q u : nat) (l : list A) : list event :=
  concat (imap (fun j x => evs x (db + j * ddb) (q + j * dq) (u + j * du)) l).

(** The orchestrator a statement returns when [db] orchestrators were
    created before. *)
Definition returned_db (m : M Orchestrator) (db : nat) : Orchestrator :=
  match fst (m (mkWorld [] [] db 0 0 ∅)) with
  | Ok o => o
  | Raise _ => mkOrchestrator db 0 0 false None None None [] [] None
  end.

#[global] Arguments returned_db : simpl never.

(** The events of one turn of the outer loop of [throughput_scaling]. *)
Definition throughput_group_events (env : Env) (exp : Experiment)
    (run_db_as_batch : bool) (batch_args : list (string * option string))
    (db_hosts : list string) (db_cpus db_port : N) (net_ifname : string)
    (clients_per_node client_nodes : list N) (iterations : N)
    (tensor_bytes : list N) (db_node_count : N) (db q u : nat)
    : list event :=
  [ GenerateDb db;
    StartDb (returned_db
               (Driver.start_database exp db_port db_node_count db_cpus None
                  net_ifname run_db_as_batch batch_args db_hosts) db) ]
  ++ loop_trace
       (fun perm db' q' u' =>
          emitted (Driver.throughput_scaling_run env exp db_node_count
                     db_cpus iterations perm) [db] db' q' u')
       0 1 1 (S db) q u
       (Itertools.product [client_nodes; clients_per_node; tensor_bytes])
  ++ [StopDb db].

(** The names the sessions of the sweeps get; [u] is the number of calls to
    [uuid4] made before. *)
Definition throughput_run_name (env : Env) (db_node_count iterations : N)
    (perm : list N) (u : nat) : string :=
  match perm with
  | [c_nodes; cpn; _bytes] =>
      Driver.throughput_session_name c_nodes cpn db_node_count iterations
        _bytes (slice_to 4 (uuid4 env u))
  | _ => ""
  end.


Definition cpp_run_name (perm : list N) : string :=
  match perm with
  | p0 :: p1 :: p2 :: p3 :: _ =>
      CppThroughput.throughput_session_name p0 p1 p2 p3
  | _ => ""
  end.

#[global] Arguments loop_trace : simpl never.



End Observe.

(** ** What is observed of an aggregation pass *)

Module AggObserve.
Import Py Driver.

Definition created_of (e : agg_event) : option Path :=
  match e with CreateRunCsv p _ => Some p | _ => None end.
Definition read_of (e : agg_event) : option Path :=
  match e with ReadCsv p => Some p | _ => None end.
Definition warning_of (e : agg_event) : option string :=
  match e with LogWarning msg => Some msg | _ => None end.

(** The run directories handed to [create_run_csv], the per-run CSVs handed
    to [pd.read_csv], the warnings written to the log. *)
Definition created (lg : list agg_event) : list Path := omap created_of lg.
Definition read (lg : list agg_event) : list Path := omap read_of lg.
Definition warnings (lg : list agg_event) : list string := omap warning_of lg.

Section WithBackend.
Variable B : Backend.
Variables (scaling_dir : string) (overwrite : bool).

(** The file system after the first loop. *)
Definition extract_all (runs : list string) (fs0 : FS B) : FS B :=
  fold_left (fun fs run =>
               snd (create_run_csv B (run_path_of scaling_dir run) overwrite
                                   fs))
            runs fs0.

(** The number of runs on which [create_run_csv] raises in the first
    loop. *)
Fixpoint extraction_failures (runs : list string) (fs : FS B) : nat :=
  match runs with
  | [] => 0
  | run :: rest =>
      let r := create_run_csv B (run_path_of scaling_dir run) overwrite fs in
      (if is_ok (fst r) then 0 else 1) + extraction_failures rest (snd r)
  end.

(** The frames read by the second loop. *)
Definition frames (runs : list string) (fs : FS B) : list DataFrame :=
  omap (fun run => to_option (read_csv B (results_path_of scaling_dir run) fs))
       runs.

(** What the two loops write to the log. *)
Fixpoint extraction_log (runs : list string) (fs : FS B) : list agg_event :=
  match runs with
  | [] => []
  | run :: rest =>
      let r := create_run_csv B (run_path_of scaling_dir run) overwrite fs in
      CreateRunCsv (run_path_of scaling_dir run) overwrite
      :: match fst r with
         | Ok _ => []
         | Raise e =>
             [LogWarning ("Skipping " +:+ run
                          +:+ " could not process results");
              LogException e]
         end
      ++ extraction_log rest (snd r)
  end.

Fixpoint collection_log (runs : list string) (fs : FS B) : list agg_event :=
  match runs with
  | [] => []
  | run :: rest =>
      ReadCsv (results_path_of scaling_dir run)
      :: match read_csv B (results_path_of scaling_dir run) fs with
         | Ok _ => []
         | Raise e =>
             [LogWarning ("Skipping " +:+ run
                          +:+ " could not read results csv");
              LogException e]
         end
      ++ collection_log rest fs
  end.

End WithBackend.

(** One aggregation pass over the disk of the extraction model: the disk it
    leaves. *)
Definition disk_pass (raw : Path -> result string) (entries : list string)
    (parse_csv : string -> result DataFrame)
    (render_csv : DataFrame -> string) (date scaling_dir : string)
    (overwrite : bool) (d : Disk) : Disk :=
  fs (snd (process_scaling_results
             (disk_backend raw entries parse_csv render_csv) date scaling_dir
             overwrite
             (mkAggWorld (B:=disk_backend raw entries parse_csv render_csv)
                         d []))).

End AggObserve.

(** ** Sample environments *)

Module Examples.
Import Py SmartSim.

(** The first status query reports a failure, the later ones completion;
    the first two strings handed out by [uuid4] differ, but not in their
    first four characters. *)
Definition env_first_fails : Env :=
  mkEnv (fun k => match k with
                  | 0 => "abcd1111-1111-4111-8111-111111111111"
                  | _ => "abcd2222-2222-4222-8222-222222222222"
                  end)
        (fun k => match k with 0 => STATUS_FAILED | _ => STATUS_COMPLETED end)
        (fun _ => "nid00001:6780")
        "364139" "/lus/scratch" "0.4.0" "/opt/redis/bin/redis-server"
        "2022-03-01".

End Examples.

(** ** [throughput-plotter.py]: finding the directory of a run *)

Module PlotterRuns.
Import Py Plotter.

(** The text an integer takes in an f-string. *)
Definition str_int (z : Z) : string := pretty z.

(** The pattern handed to [glob], up to its final star. *)
Definition run_prefix (nnodes DB_node size : Z) : string :=
  "thoughput-sess-N" +:+ str_int nnodes
  +:+ "-T" +:+ str_int threads
  +:+ "-DBN" +:+ str_int DB_node
  +:+ "-ITER" +:+ str_int loop_iters
  +:+ "-TB" +:+ str_int size +:+ "-".

(** [glob(os.path.join(base_path, prefix + "*"))], given the names found
    in [base_path] in the order the file system lists them: the star being
    the only wildcard, a name matches when it starts with the prefix. *)
Definition glob_prefix (base_path prefix : string) (entries : list string)
    : list string :=
  map (fun e => base_path +:+ "/" +:+ e)
      (List.filter (String.prefix prefix) entries).

Section Sizes.
Variable float_of_string : string -> option float.
(** The names in [base_path], and [os.listdir] of a run directory together
    with the lines of its files. *)
Variable entries : list string.
Variable files_of : string -> result (list (string * list string)).

(** The body of the [try] of the loop over the sizes, up to the samples
    the data frame is made of. *)
Definition analyse_size (base_path : string) (nnodes DB_node size : Z)
    : result (gmap string (list float)) :=
  match glob_prefix base_path (run_prefix nnodes DB_node size) entries with
  | [] => Raise IndexError
  | path :: _ =>
      match files_of path with
      | Raise e => Raise e
      | Ok files => read_files float_of_string size initial_times files
      end
  end.

(** One turn of the loop over the sizes: the bare [except] prints a
    warning and leaves [dfs] as it is. *)
Definition size_step (base_path : string) (nnodes DB_node : Z)
    (dfs : gmap Z (gmap string (list float))) (size : Z)
    : gmap Z (gmap string (list float)) :=
  match analyse_size base_path nnodes DB_node size with
  | Ok function_times => <[size := function_times]> dfs
  | Raise _ => dfs
  end.

(** The loop over the sizes for one number of database nodes. *)
Definition analyse_sizes (base_path : string) (nnodes DB_node : Z)
    : gmap Z (gmap string (list float)) :=
  fold_left (size_step base_path nnodes DB_node) sizes ∅.

End Sizes.
End PlotterRuns.

(** ** More of what is observed of a run *)

Module Views.
Import Py SmartSim Observe.


(** The session names handed to the statistics step. *)
Definition stats_of (e : event) : option (list string) :=
  match e with CollectStats names => Some names | _ => None end.
Definition collected (t : list event) : list (list string) := omap stats_of t.

(** The allocations asked for and given back. *)
Definition allocation_of (e : event) : option (N + string) :=
  match e with
  | GetAllocation n => Some (inl n)
  | ReleaseAllocation a => Some (inr a)
  | _ => None
  end.
Definition allocations (t : list event) : list (N + string) :=
  omap allocation_of t.

(** The views of a trace that a turn of the loop extends. *)
Record turn_views (evs : list event) (ds : list deployment_event)
    (errs : list string) : Prop := mkTurnViews {
  turn_deployments : deployments evs = ds;
  turn_errors : errors evs = errs;
  turn_collected : collected evs = [];
  turn_allocations : allocations evs = []
}.

(** The life of the orchestrator of one permutation of
    [cpp-throughput/driver.py] whose session completes. *)
Definition cpp_block (db : nat) (perm : list N) : list deployment_event :=
  [ DStart db (nth 2 perm 0%N);
    DRun (cpp_run_name perm) [db];
    DRun (join "-" ["post"; cpp_run_name perm]) [db];
    DStop db ].

(** A job of the sweep of [cpp-throughput/driver.py] fits an allocation
    of [n] nodes: it runs in the allocation, a session on no more than [n]
    nodes, a post-processing job on one node. *)
Definition fits (env : Env) (n : N) (m : Model) : Prop :=
  model_alloc m = Some (allocation_id env)
  /\ exists k, model_nodes m = Some k
               /\ ((k <= n)%N \/ model_exe m = "python" /\ k = 1%N).







(** What the rank files hold.  A line is read as a sample when its second
    field is the tracked label and its third field is a number other than
    zero; it is passed over when its second field is another label. *)
Definition reads (float_of_string : string -> option float) (line : string)
    (sample : option float) : Prop :=
  match sample with
  | Some t =>
      exists w field rest,
        split "," line = w :: "loop_time" :: field :: rest
        /\ float_of_string field = Some t
        /\ PrimFloat.eqb t 0%float = false
  | None =>
      exists w label rest,
        split "," line = w :: label :: rest /\ label <> "loop_time"
  end.

(** The ways a line makes the reading raise. *)
Inductive fails (float_of_string : string -> option float) (line : string)
    : exn -> Prop :=
| fails_no_comma :
    contains "," line = false -> fails float_of_string line IndexError
| fails_no_time w :
    split "," line = [w; "loop_time"] -> fails float_of_string line IndexError
| fails_no_number w field rest :
    split "," line = w :: "loop_time" :: field :: rest ->
    float_of_string field = None ->
    fails float_of_string line
          (ValueError "could not convert string to float")
| fails_zero w field rest t :
    split "," line = w :: "loop_time" :: field :: rest ->
    float_of_string field = Some t ->
    PrimFloat.eqb t 0%float = true ->
    fails float_of_string line ZeroDivisionError.

(** The files of a run directory the plotter opens. *)
Definition is_rank_file (file : string * list string) : bool :=
  contains ".csv" (fst file) && contains "rank_" (fst file).

End Views.

(* ===================================================================== *)
(** * Part II: properties                                                 *)
(* ===================================================================== *)

(** ** Strings *)

Module PyFacts.
Import Py.

Lemma append_nil_l (a : string) : "" +:+ a = a.
Proof. reflexivity. Qed.

Lemma append_cons (x : ascii) (a b : string) :
  String x a +:+ b = String x (a +:+ b).
Proof. reflexivity. Qed.

Lemma append_assoc (a b c : string) : (a +:+ b) +:+ c = a +:+ (b +:+ c).
Proof.
  induction a as [|x a IH]; [done|]. by rewrite !append_cons, IH.
Qed.

Lemma append_nil_r (a : string) : a +:+ "" = a.
Proof.
  induction a as [|x a IH]; [done|]. by rewrite append_cons, IH.
Qed.

Lemma prefix_spec (p s : string) :
  String.prefix p s = true <-> exists r, s = p +:+ r.
Proof.
  revert s. induction p as [|a p IH]; intros [|b s]; simpl.
  - split; [intros _; by exists ""|done].
  - split; [intros _; by exists (String b s)|done].
  - split; [done|by intros [r ?]].
  - destruct (ascii_dec a b) as [->|Hab].
    + rewrite IH. split; intros [r Hr]; exists r.
      * by rewrite append_cons, <- Hr.
      * rewrite append_cons in Hr. congruence.
    + split; [done|]. intros [r Hr]. rewrite append_cons in Hr. congruence.
Qed.

Lemma contains_unfold (sub s : string) :
  contains sub s
  = if String.prefix sub s then true
    else match s with "" => false | String _ s' => contains sub s' end.
Proof. by destruct s. Qed.

(** [contains] is the substring test: [sub] occurs somewhere in [s]. *)
Lemma contains_spec (sub s : string) :
  contains sub s = true <-> exists pre post, s = pre +:+ sub +:+ post.
Proof.
  induction s as [|a s IH]; rewrite contains_unfold.
  - destruct (String.prefix sub "") eqn:Hp.
    + split; [intros _|done]. apply prefix_spec in Hp as [r Hr].
      by exists "", r.
    + split; [done|]. intros (pre & post & Heq).
      destruct pre as [|b pre]; [|by rewrite append_cons in Heq].
      rewrite append_nil_l in Heq.
      assert (String.prefix sub "" = true) by (apply prefix_spec; eauto).
      congruence.
  - destruct (String.prefix sub (String a s)) eqn:Hp.
    + split; [intros _|done]. apply prefix_spec in Hp as [r Hr].
      by exists "", r.
    + rewrite IH. split.
      * intros (pre & post & ->). by exists (String a pre), post.
      * intros (pre & post & Heq). destruct pre as [|b pre].
        -- rewrite append_nil_l in Heq.
           assert (String.prefix sub (String a s) = true)
             by (apply prefix_spec; eauto).
           congruence.
        -- rewrite append_cons in Heq. injection Heq as -> ->.
           by exists pre, post.
Qed.







End PyFacts.

(** ** The permutation generator *)

Module ItertoolsFacts.
Import Itertools.
Section Product.
Context {A : Type}.
Implicit Types (pools : list (list A)) (pool : list A).

Lemma fold_extend_prefixes pools (acc : list (list A)) :
  fold_left extend pools acc
  = flat_map (fun x => map (app x) (product pools)) acc.
Proof.
  unfold product. revert acc.
  induction pools as [|pool pools IH]; intros acc; cbn [fold_left].
  - induction acc as [|x acc IHacc]; cbn; [done|].
    rewrite app_nil_r. by f_equal.
  - rewrite (IH (extend acc pool)), (IH (extend [[]] pool)).
    unfold extend. simpl. rewrite app_nil_r.
    induction acc as [|x acc IHacc]; simpl; [done|].
    rewrite flat_map_app, IHacc. f_equal.
    rewrite !flat_map_concat_map, !map_map, concat_map.
    rewrite !map_map. f_equal.
    apply map_ext; intros y. rewrite !map_map.
    apply map_ext; intros t. by rewrite <- app_assoc.
Qed.

Lemma product_nil : product (A:=A) [] = [[]].
Proof. done. Qed.

Lemma product_cons pool pools :
  product (pool :: pools)
  = flat_map (fun x => map (cons x) (product pools)) pool.
Proof.
  unfold product at 1. simpl. rewrite fold_extend_prefixes.
  unfold extend. simpl. rewrite app_nil_r.
  rewrite flat_map_concat_map, map_map, <- flat_map_concat_map.
  done.
Qed.

Lemma length_blocks {B} (f : A -> list B) m pool :
  (forall x, length (f x) = m) ->
  length (flat_map f pool) = length pool * m.
Proof.
  intros Hf. induction pool as [|x pool IH]; simpl; [done|].
  rewrite length_app, Hf, IH. lia.
Qed.

Lemma product_length pools :
  length (product pools) = count (map length pools).
Proof.
  induction pools as [|pool pools IH]; [done|].
  rewrite product_cons. simpl.
  rewrite (length_blocks _ (length (product pools))).
  - by rewrite IH.
  - intros x. by rewrite length_map.
Qed.

Lemma nth_error_blocks {B} (f : A -> list B) m pool i :
  (forall x, length (f x) = m) -> 0 < m ->
  nth_error (flat_map f pool) i
  = match nth_error pool (i / m) with
    | Some x => nth_error (f x) (i mod m)
    | None => None
    end.
Proof.
  intros Hf Hm. revert i.
  induction pool as [|x pool IH]; intros i; simpl.
  - destruct i; simpl; by destruct (_ / m).
  - destruct (Nat.lt_ge_cases i m) as [Hi|Hi].
    + rewrite nth_error_app1 by (rewrite Hf; lia).
      by rewrite Nat.div_small, Nat.mod_small.
    + rewrite nth_error_app2 by (rewrite Hf; lia).
      rewrite Hf, IH.
      assert (i = (i - m) + 1 * m) as Hd by lia.
      assert (i / m = S ((i - m) / m)) as ->
        by (rewrite Hd at 1; rewrite Nat.div_add by lia; lia).
      assert (i mod m = (i - m) mod m) as ->
        by (rewrite Hd at 1; by rewrite Nat.Div0.mod_add).
      done.
Qed.

Lemma product_nth pools i :
  i < count (map length pools) ->
  nth_error (product pools) i = select pools (digits (map length pools) i)
  /\ is_Some (nth_error (product pools) i).
Proof.
  revert i. induction pools as [|pool pools IH]; intros i Hi; simpl in *.
  - assert (i = 0) as -> by lia. split; [done|by eexists].
  - rewrite product_cons.
    assert (0 < count (map length pools)) as Hpos by nia.
    rewrite (nth_error_blocks _ (length (product pools)))
      by (intros; by rewrite ?length_map, ?product_length).
    rewrite product_length.
    assert (i / count (map length pools) < length pool) as Hq
      by (apply Nat.Div0.div_lt_upper_bound; lia).
    destruct (nth_error pool _) as [x|] eqn:Hx;
      [|apply nth_error_None in Hx; lia].
    rewrite nth_error_map.
    destruct (IH (i mod count (map length pools))) as [-> [t Ht]];
      [by apply Nat.mod_upper_bound; lia|].
    rewrite Ht. simpl. split; [done|by eexists].
Qed.

Lemma product_tuple_length pools :
  Forall (fun t => length t = length pools) (product pools).
Proof.
  induction pools as [|pool pools IH]; [by repeat constructor|].
  rewrite product_cons. apply List.Forall_forall. intros t Ht.
  apply in_flat_map in Ht as (x & _ & Ht).
  apply in_map_iff in Ht as (t' & <- & Ht').
  rewrite List.Forall_forall in IH. simpl. f_equal. by apply IH.
Qed.

Lemma product_empty_axis pools : In [] pools -> product pools = [].
Proof.
  induction pools as [|pool pools IH]; [done|].
  rewrite product_cons. intros [->|Hin]; [done|].
  rewrite IH by done. by induction pool.
Qed.

Lemma select_draws pools idx t :
  select pools idx = Some t -> Forall2 (fun x pool => In x pool) t pools.
Proof.
  revert idx t. induction pools as [|pool pools IH]; intros [|i idx] t; simpl;
    try discriminate.
  - intros [= <-]. constructor.
  - destruct (nth_error pool i) as [x|] eqn:Hx; [|discriminate].
    destruct (select pools idx) as [t'|] eqn:Ht; [|discriminate].
    intros [= <-]. constructor; eauto using nth_error_In.
Qed.
End Product.

Lemma count_pos_digits ks i j :
  i < j -> j < count ks -> lex_lt (digits ks i) (digits ks j).
Proof.
  revert i j. induction ks as [|k ks IH]; intros i j Hij Hj; simpl in *.
  - lia.
  - assert (0 < count ks) as Hpos by nia.
    destruct (Nat.lt_ge_cases (i / count ks) (j / count ks)) as [Hq|Hq].
    + by constructor.
    + assert (i / count ks <= j / count ks)
        by (apply Nat.Div0.div_le_mono; lia).
      assert (i / count ks = j / count ks) as Heq by lia.
      rewrite Heq. apply lex_lt_tail, IH.
      * pose proof (Nat.div_mod_eq i (count ks)).
        pose proof (Nat.div_mod_eq j (count ks)). nia.
      * apply Nat.mod_upper_bound. lia.
Qed.

(** C2: the permutation generator yields exactly k_1 * ... * k_N tuples; the
    tuple at position [i] takes on every axis the candidate whose index is
    the corresponding mixed-radix digit of [i] (first axis most significant),
    so that each tuple draws one value from each axis, the index tuples run
    through strictly increasing lexicographic order, and nothing is filtered
    out or merged. *)
Theorem product_cartesian {A} (pools : list (list A)) :
  let ks := map length pools in
  length (product pools) = count ks
  /\ (forall i, i < count ks ->
        exists t, nth_error (product pools) i = Some t
                  /\ select pools (digits ks i) = Some t
                  /\ Forall2 (fun x pool => In x pool) t pools)
  /\ (forall i j, i < j -> j < count ks ->
        lex_lt (digits ks i) (digits ks j)).
Proof.
  intros ks. split; [apply product_length|]. split.
  - intros i Hi. destruct (product_nth pools i Hi) as [Heq [t Ht]].
    exists t. split; [done|]. rewrite Ht in Heq. split; [done|].
    by apply (select_draws pools (digits ks i)).
  - intros i j. apply count_pos_digits.
Qed.

End ItertoolsFacts.

(** ** Run names *)

Module NamingFacts.
Import Py SmartSim PyFacts.

(** Strips the characters that two equal strings visibly share. *)
Ltac peel H :=
  repeat match type of H with
         | String ?c _ = String ?c _ => injection H as H
         end.

Ltac flatten_name :=
  cbv [join]; rewrite ?append_assoc, ?append_cons, ?append_nil_l.





End NamingFacts.

(** ** Loops *)

Module LoopFacts.
Import Py SmartSim Observe.

Lemma for_each_cons {S A} (x : A) (l : list A) (body : A -> Py.M S unit) w :
  for_each (x :: l) body w
  = match body x w with
    | (Ok _, w') => for_each l body w'
    | (Raise e, w') => (Raise e, w')
    end.
Proof. reflexivity. Qed.

Lemma loop_trace_cons {A} (evs : A -> nat -> nat -> nat -> list event)
    ddb dq du db q u (x : A) l :
  loop_trace evs ddb dq du db q u (x :: l)
  = evs x db q u ++ loop_trace evs ddb dq du (db + ddb) (q + dq) (u + du) l.
Proof.
  unfold loop_trace. rewrite imap_cons. cbn [concat].
  rewrite !Nat.add_0_r. f_equal. f_equal. apply imap_ext.
  intros j y _. simpl. f_equal; lia.
Qed.

Lemma files_after_app t1 t2 fs :
  files_after (t1 ++ t2) fs = files_after t2 (files_after t1 fs).
Proof.
  revert fs. induction t1 as [|e t1 IH]; intros fs; [done|].
  destruct e; cbn; apply IH.
Qed.

Lemma regular_for_each {A} (P : A -> Prop) body a0 evs ddb dq du (l : list A) :
  regular P body a0 evs ddb dq du -> Forall P l ->
  forall w, active w = a0 ->
  exists w',
    for_each l body w = (Ok tt, w')
    /\ trace w' = trace w ++ loop_trace evs ddb dq du
                               (next_db w) (queries w) (next_uuid w) l
    /\ active w' = a0
    /\ next_db w' = next_db w + length l * ddb
    /\ queries w' = queries w + length l * dq
    /\ next_uuid w' = next_uuid w + length l * du
    /\ files w' = files_after (loop_trace evs ddb dq du
                                 (next_db w) (queries w) (next_uuid w) l)
                              (files w).
Proof.
  intros Hreg Hl. induction Hl as [|x l Hx Hl IH]; intros w Ha.
  - exists w. unfold loop_trace. cbn. rewrite app_nil_r.
    repeat split; first [done | lia].
  - rewrite for_each_cons.
    pose proof (reg_ok _ _ _ _ _ _ _ Hreg x w Hx Ha) as Hok.
    pose proof (reg_trace _ _ _ _ _ _ _ Hreg x w Hx Ha) as Ht.
    pose proof (reg_active _ _ _ _ _ _ _ Hreg x w Hx Ha) as Hact.
    pose proof (reg_db _ _ _ _ _ _ _ Hreg x w Hx Ha) as Hdb.
    pose proof (reg_q _ _ _ _ _ _ _ Hreg x w Hx Ha) as Hq.
    pose proof (reg_u _ _ _ _ _ _ _ Hreg x w Hx Ha) as Hu.
    pose proof (reg_files _ _ _ _ _ _ _ Hreg x w Hx Ha) as Hf.
    destruct (body x w) as [r w1]. simpl in *. subst r.
    destruct (IH w1 Hact)
      as (w' & Hrun & Ht' & Ha' & Hdb' & Hq' & Hu' & Hf').
    exists w'. split; [done|]. rewrite loop_trace_cons, files_after_app.
    rewrite Ht', Hf', Hf, Ht, Hdb, Hq, Hu, <- app_assoc.
    repeat split; [done|lia..].
Qed.





End LoopFacts.

(** ** The sweeps of [driver.py] *)

Module DriverFacts.
Import Py SmartSim Itertools Observe LoopFacts.

Ltac unpack perm H :=
  repeat (destruct perm as [|? perm]; [discriminate H|]);
  destruct perm; [clear H|discriminate H].

Lemma omap_concat {A B} (f : A -> option B) (ls : list (list A)) :
  omap f (concat ls) = concat ((omap f : list A -> list B) <$> ls).
Proof.
  induction ls as [|l ls IH]; [done|].
  cbn [concat fmap list_fmap]. by rewrite omap_app, IH.
Qed.

Lemma omap_loop_trace {A B} (f : event -> option B)
    (evs : A -> nat -> nat -> nat -> list event) ddb dq du db q u l :
  omap f (loop_trace evs ddb dq du db q u l)
  = concat (imap (fun j x =>
              omap f (evs x (db + j * ddb) (q + j * dq) (u + j * du))) l).
Proof. unfold loop_trace. by rewrite omap_concat, fmap_imap. Qed.

Lemma concat_imap_singleton {A B} (g : nat -> A -> B) (l : list A) :
  concat (imap (fun j x => [g j x]) l) = imap g l.
Proof.
  revert g. induction l as [|x l IH]; intros g; [done|].
  rewrite !imap_cons. cbn [concat app]. f_equal. apply (IH (g ∘ S)).
Qed.

(** A view of the trace of a loop in which every turn shows as one item. *)
Lemma omap_loop_trace_singletons {A B} (f : event -> option B)
    (evs : A -> nat -> nat -> nat -> list event)
    (g : A -> nat -> nat -> nat -> B) (P : A -> Prop) ddb dq du db q u l :
  Forall P l ->
  (forall x db q u, P x -> omap f (evs x db q u) = [g x db q u]) ->
  omap f (loop_trace evs ddb dq du db q u l)
  = imap (fun j x => g x (db + j * ddb) (q + j * dq) (u + j * du)) l.
Proof.
  intros Hl Hf. rewrite omap_loop_trace.
  rewrite <- (concat_imap_singleton
                (fun j x => g x (db + j * ddb) (q + j * dq) (u + j * du)) l).
  f_equal. apply imap_ext. intros j x Hx. apply Hf.
  rewrite Forall_lookup in Hl. by eapply Hl.
Qed.

Section WithEnv.
Variable env : Env.

(** *** [throughput_scaling] *)

Section Throughput.
Variables (exp : Experiment) (db_node_count db_cpus iterations : N).

Let run := Driver.throughput_scaling_run env exp db_node_count db_cpus
                                         iterations.

Lemma throughput_run_regular (a0 : list nat) :
  regular (fun perm => length perm = 3) run a0
          (fun perm db q u => emitted (run perm) a0 db q u) 0 1 1.
Proof.
  subst run.
  constructor; intros perm w Hlen <-;
    unpack perm Hlen; unfold emitted; cbn;
    destruct (bool_decide _); cbn; rewrite <- ?app_assoc; f_equal; lia.
Qed.


Lemma throughput_run_deployments perm a0 db q u :
  length perm = 3 ->
  deployments (emitted (run perm) a0 db q u)
  = [DRun (throughput_run_name env db_node_count iterations perm u) a0].
Proof.
  subst run. intros Hlen. unpack perm Hlen. unfold emitted. cbn.
  by destruct (bool_decide _).
Qed.


End Throughput.

(** *** Orchestrators *)

Lemma fold_batch_args_id (args : list (string * option string)) db :
  db_id (fold_left (fun d kv => set_batch_arg (fst kv) (snd kv) d) args db)
  = db_id db
  /\ db_node_count
       (fold_left (fun d kv => set_batch_arg (fst kv) (snd kv) d) args db)
     = db_node_count db.
Proof.
  revert db. induction args as [|kv args IH]; intros db; [done|].
  cbn [fold_left]. destruct (IH (set_batch_arg kv.1 kv.2 db)) as [-> ->].
  done.
Qed.

Section Database.
Variables (exp : Experiment) (port nodes cpus : N) (tpq : option N)
          (net_ifname : string) (run_as_batch : bool)
          (batch_args : list (string * option string)) (hosts : list string).

Let start := Driver.start_database exp port nodes cpus tpq net_ifname
                                   run_as_batch batch_args hosts.

Lemma start_database_run w :
  start w
  = (Ok (returned_db start (next_db w)),
     mkWorld (trace w ++ [GenerateDb (next_db w);
                          StartDb (returned_db start (next_db w))])
             (active w ++ [next_db w]) (S (next_db w)) (queries w)
             (next_uuid w) (files w)).
Proof.
  subst start. unfold returned_db, Driver.start_database. cbn.
  destruct run_as_batch, hosts; cbn; rewrite <- ?app_assoc; cbn;
    repeat f_equal; apply fold_batch_args_id.
Qed.

Lemma returned_db_id id :
  db_id (returned_db start id) = id
  /\ db_node_count (returned_db start id) = nodes.
Proof.
  subst start. unfold returned_db, Driver.start_database. cbn.
  destruct run_as_batch, hosts; cbn; try done; apply fold_batch_args_id.
Qed.

End Database.

Lemma stop_only_db (id : nat) : filter (fun i => i ≠ id) [id] = [].
Proof. by apply filter_singleton_False; [constructor|intros ?]. Qed.

(** *** The groups of [throughput_scaling] *)

Section Groups.
Variables (exp : Experiment) (run_db_as_batch : bool)
          (batch_args : list (string * option string))
          (db_hosts : list string) (db_cpus db_port : N)
          (net_ifname : string) (clients_per_node client_nodes : list N)
          (iterations : N) (tensor_bytes : list N).

Let perms := product [client_nodes; clients_per_node; tensor_bytes].
Let group := Driver.throughput_scaling_group env exp run_db_as_batch
               batch_args db_hosts db_cpus db_port net_ifname
               clients_per_node client_nodes iterations tensor_bytes.
Let group_events := throughput_group_events env exp run_db_as_batch
               batch_args db_hosts db_cpus db_port net_ifname
               clients_per_node client_nodes iterations tensor_bytes.

Lemma perms_unpack : Forall (fun perm => length perm = 3) perms.
Proof. apply (ItertoolsFacts.product_tuple_length [_; _; _]). Qed.

Lemma throughput_group_run d w :
  active w = [] ->
  exists w',
    group d w = (Ok tt, w')
    /\ trace w' = trace w ++ group_events d (next_db w) (queries w)
                                          (next_uuid w)
    /\ active w' = []
    /\ next_db w' = next_db w + 1
    /\ queries w' = queries w + length perms
    /\ next_uuid w' = next_uuid w + length perms
    /\ files w' = files_after (group_events d (next_db w) (queries w)
                                            (next_uuid w)) (files w).
Proof.
  intros Ha. subst group group_events.
  unfold Driver.throughput_scaling_group, throughput_group_events, bind.
  rewrite start_database_run. fold perms.
  match goal with |- context [for_each perms _ ?w0] => set (w1 := w0) end.
  destruct (regular_for_each _ _ _ _ _ _ _ perms
              (throughput_run_regular exp d db_cpus iterations [next_db w])
              perms_unpack w1)
    as (w2 & Hrun & Ht & Hact & Hdb & Hq & Hu & Hf).
  { subst w1. cbn [active]. by rewrite Ha. }
  rewrite Hrun. eexists. split; [reflexivity|].
  cbn [trace active next_db queries next_uuid files].
  rewrite Ht, Hact, Hdb, Hq, Hu, Hf. subst w1.
  cbn [trace active next_db queries next_uuid files].
  rewrite (proj1 (returned_db_id _ _ _ _ _ _ _ _ _ _)).
  rewrite stop_only_db, <- !app_assoc.
  rewrite !files_after_app. cbn [files_after app].
  repeat split; first [done | lia].
Qed.

Lemma throughput_group_regular :
  regular (fun _ => True) group [] group_events 1 (length perms)
          (length perms).
Proof.
  constructor; intros d w _ Ha;
    destruct (throughput_group_run d w Ha)
      as (w' & -> & Ht & Hact & Hdb & Hq & Hu & Hf); by cbn.
Qed.

Lemma throughput_group_deployments d db q u :
  deployments (group_events d db q u)
  = DStart db d
    :: imap (fun j perm =>
               DRun (throughput_run_name env d iterations perm (u + j)) [db])
            perms
    ++ [DStop db].
Proof.
  subst group_events. unfold throughput_group_events, deployments.
  rewrite !omap_app. fold perms. cbn [omap list_omap deployment_of app].
  destruct (returned_db_id exp db_port d db_cpus None net_ifname
              run_db_as_batch batch_args db_hosts db) as [-> ->].
  f_equal. f_equal.
  rewrite (omap_loop_trace_singletons _ _
             (fun perm _ _ u' =>
                DRun (throughput_run_name env d iterations perm u') [db])
             _ _ _ _ _ _ _ _ perms_unpack).
  - apply imap_ext. intros j perm _. simpl. do 2 f_equal. lia.
  - intros perm db' q' u' Hlen. by apply throughput_run_deployments.
Qed.



Lemma throughput_scaling_trace exp_name launcher db_nodes :
  exp = Driver.Experiment_ env exp_name launcher ->
  exists w',
    Driver.throughput_scaling env exp_name launcher run_db_as_batch
      batch_args db_hosts db_nodes db_cpus db_port net_ifname
      clients_per_node client_nodes iterations tensor_bytes init
    = (Ok tt, w')
    /\ trace w' = loop_trace group_events 1 (length perms) (length perms)
                             0 0 0 db_nodes
    /\ active w' = []
    /\ files w' = files_after (trace w') ∅.
Proof.
  intros Hexp. unfold Driver.throughput_scaling. rewrite <- Hexp.
  destruct (regular_for_each _ _ _ _ _ _ _ db_nodes throughput_group_regular
              (Forall_true _ _ (fun _ => I)) init eq_refl)
    as (w' & Hrun & Ht & Hact & _ & _ & _ & Hf).
  exists w'. by rewrite Ht, Hf.
Qed.

End Groups.

(** *** [inference_standard] *)

Section Standard.
Variables (exp : Experiment) (run_db_as_batch : bool)
          (batch_args : list (string * option string))
          (db_hosts : list string) (db_port : N) (device : string)
          (num_devices : N) (net_ifname : string).

Let run := Driver.inference_standard_run env exp run_db_as_batch batch_args
             db_hosts db_port device num_devices net_ifname.









End Standard.

(** *** [inference_colocated] *)

Section Colocated.
Variables (exp : Experiment) (db_port : N) (device : string)
          (num_devices : N) (net_ifname : string).

Let run := Driver.inference_colocated_run env exp db_port device num_devices
                                          net_ifname.




End Colocated.

(** *** Failures in a loop *)



End WithEnv.



End DriverFacts.

(** ** The sweep of [cpp-throughput/driver.py] *)

Module CppFacts.
Import Py SmartSim Itertools Observe LoopFacts.

Section WithEnv.
Variable env : Env.
Variables (db_cpus db_tpq db_port : N) (allocation : string).

Let step := CppThroughput.throughput_step env db_cpus db_tpq db_port
                                          allocation.

Lemma for_each_break_cons {S A L} (x : A) (l : list A) (acc : L)
    (body : A -> L -> Py.M S (flow * L)) w :
  for_each_break (x :: l) acc body w
  = match body x acc w with
    | (Ok (Break, acc'), w') => (Ok acc', w')
    | (Ok (Continue, acc'), w') => for_each_break l acc' body w'
    | (Raise e, w') => (Raise e, w')
    end.
Proof.
  cbn. unfold bind. destruct (body x acc w) as [[[[] ?]|] ?]; done.
Qed.





End WithEnv.
End CppFacts.

(** ** What the sweeps do when a session fails *)

Module SweepFacts.
Import Py SmartSim Itertools Observe LoopFacts DriverFacts CppFacts.

Lemma nonempty_product_axes {A} (pool : list A) pools :
  0 < length (product (pool :: pools)) -> pool <> [].
Proof.
  intros Hlen ->. rewrite (ItertoolsFacts.product_empty_axis ([] :: pools))
    in Hlen by (by left). cbn in Hlen. lia.
Qed.

Lemma cpp_perms_index (client_nodes clients_per_node db_nodes tensor_bytes
    : list N) :
  Forall (fun perm => 4 <= length perm)
         (product [client_nodes; clients_per_node; db_nodes; tensor_bytes]).
Proof.
  eapply Forall_impl; [apply ItertoolsFacts.product_tuple_length|].
  intros perm ->. cbn. lia.
Qed.




(** C3, as the code has it: an axis without candidates makes the
    permutation generator return the empty sequence; nothing is raised by
    it.  [inference_standard] then returns normally and has done nothing;
    the sweep of [cpp-throughput/driver.py] launches nothing, and returns
    normally unless the empty axis is [client_nodes], on which
    [max(client_nodes)] raises before any permutation is generated. *)
Theorem empty_axis_generates_nothing (env : Env) :
  (forall (A : Type) (pools : list (list A)),
     In [] pools -> product pools = [])
  /\ (forall exp_name launcher run_db_as_batch batch_args db_hosts db_nodes
             db_cpus db_tpq db_port batch_size device num_devices net_ifname
             clients_per_node client_nodes,
     In [] [client_nodes; clients_per_node; db_nodes; db_cpus; db_tpq;
            batch_size] ->
     Driver.inference_standard env exp_name launcher run_db_as_batch
       batch_args db_hosts db_nodes db_cpus db_tpq db_port batch_size
       device num_devices net_ifname clients_per_node client_nodes init
     = (Ok tt, init))
  /\ (forall db_nodes db_cpus db_tpq db_port device clients_per_node
             client_nodes tensor_bytes,
     In [] [client_nodes; clients_per_node; db_nodes; tensor_bytes] ->
     exists r w',
       CppThroughput.throughput env db_nodes db_cpus db_tpq db_port device
         clients_per_node client_nodes tensor_bytes init
       = (r, w')
       /\ launches (trace w') = []
       /\ deployments (trace w') = []
       /\ (client_nodes <> [] -> r = Ok tt)
       /\ (client_nodes = [] ->
           r = Raise (ValueError "max() arg is an empty sequence")
           /\ w' = init)).
Proof.
  split; [|split].
  - intros A pools. apply ItertoolsFacts.product_empty_axis.
  - intros ename launcher as_batch args hosts nodes cpus tpq port batch device
           num_devices ifname cpn cnodes Hempty.
    unfold Driver.inference_standard.
    by rewrite (ItertoolsFacts.product_empty_axis _ Hempty).
  - intros nodes cpus tpq port device cpn cnodes tbytes Hempty.
    unfold CppThroughput.throughput.
    rewrite (ItertoolsFacts.product_empty_axis _ Hempty).
    destruct cnodes as [|c cnodes].
    + do 2 eexists. split; [reflexivity|]. by repeat split.
    + do 2 eexists. split; [reflexivity|]. by repeat split.
Qed.

Lemma empty_axis_generates_nothing_witness :
  Driver.inference_standard Examples.env_first_fails "inference-scaling"
    "slurm" true [] [] [12%N] [2%N] [1%N] 6780 [] "GPU" 1 "ipogif0" [48%N]
    [12%N] init
  = (Ok tt, init).
Proof.
  destruct (empty_axis_generates_nothing Examples.env_first_fails)
    as (_ & H & _).
  apply H. cbn. tauto.
Defined.

(** C3, as stated, fails: with no candidate for [batch_size] the sweep
    [inference_standard] returns normally; no error is raised. *)
Lemma empty_axis_counterexample :
  Itertools.product [[12%N]; [48%N]; [12%N]; [2%N]; [1%N]; []] = []
  /\ Driver.inference_standard Examples.env_first_fails "inference-scaling"
       "slurm" true [] [] [12%N] [2%N] [1%N] 6780 [] "GPU" 1 "ipogif0"
       [48%N] [12%N] init
     = (Ok tt, init).
Proof. split; vm_compute; reflexivity. Qed.

End SweepFacts.

(** ** Result aggregation *)

Module AggFacts.
Import Py Driver AggObserve PyFacts.

Section WithBackend.
Variable B : Backend.
Variables (date scaling_dir : string) (overwrite : bool).

Lemma extraction_loop runs fs lg :
  for_each runs (fun run =>
    try_except
      (let run_path := run_path_of scaling_dir run in
       call_create_run_csv B run_path overwrite)
      (fun e =>
         bind (record B (LogWarning ("Skipping " +:+ run
                                     +:+ " could not process results")))
              (fun _ => record B (LogException e))))
    (mkAggWorld fs lg)
  = (Ok tt,
     mkAggWorld (extract_all B scaling_dir overwrite runs fs)
                (lg ++ extraction_log B scaling_dir overwrite runs fs)).
Proof.
  revert fs lg. induction runs as [|run runs IH]; intros fs lg.
  - cbn. by rewrite app_nil_r.
  - cbn [for_each extract_all fold_left extraction_log].
    unfold bind at 1, try_except, call_create_run_csv.
    cbn [Driver.fs Driver.log fst snd].
    destruct (create_run_csv B (run_path_of scaling_dir run) overwrite fs)
      as [[[]|e] fs1]; cbn [fst snd record bind Driver.fs Driver.log].
    + rewrite IH. by rewrite <- app_assoc.
    + rewrite IH. by rewrite <- !app_assoc.
Qed.

Lemma collection_loop runs acc fs lg :
  for_each_break runs acc (fun run dataframes =>
    try_except
      (let results_path := results_path_of scaling_dir run in
       bind (pd_read_csv B results_path)
            (fun run_df => ret (Continue, dataframes ++ [run_df])))
      (fun e =>
         bind (record B (LogWarning ("Skipping " +:+ run
                                     +:+ " could not read results csv")))
              (fun _ => bind (record B (LogException e))
                             (fun _ => ret (Continue, dataframes)))))
    (mkAggWorld fs lg)
  = (Ok (acc ++ frames B scaling_dir runs fs),
     mkAggWorld fs (lg ++ collection_log B scaling_dir runs fs)).
Proof.
  revert acc lg. induction runs as [|run runs IH]; intros acc lg.
  - cbn. by rewrite !app_nil_r.
  - cbn [for_each_break collection_log]. unfold frames. cbn [omap list_omap].
    unfold bind at 1, try_except, bind at 1, pd_read_csv.
    cbn [Driver.fs Driver.log fst snd].
    destruct (read_csv B (results_path_of scaling_dir run) fs) as [df|e];
      cbn [to_option record bind ret Driver.fs Driver.log].
    + rewrite IH. unfold frames. by rewrite <- !app_assoc.
    + rewrite IH. unfold frames. by rewrite <- !app_assoc.
Qed.

(** [os.listdir] is called before the [try]: when it raises, the pass ends
    there. *)
Lemma process_listdir_raises fs lg e :
  listdir B scaling_dir fs = Raise e ->
  process_scaling_results B date scaling_dir overwrite (mkAggWorld fs lg)
  = (Raise e, mkAggWorld fs lg).
Proof.
  intros Hls. unfold process_scaling_results, bind at 1, os_listdir.
  cbn [Driver.fs Driver.log]. by rewrite Hls.
Qed.

(** The whole pass, once the directory has been listed. *)
Lemma process_run fs lg entries :
  listdir B scaling_dir fs = Ok entries ->
  let runs := List.filter is_run entries in
  let fs1 := extract_all B scaling_dir overwrite runs fs in
  let dfs := frames B scaling_dir runs fs1 in
  let lg1 := lg ++ extraction_log B scaling_dir overwrite runs fs
                ++ collection_log B scaling_dir runs fs1 in
  process_scaling_results B date scaling_dir overwrite (mkAggWorld fs lg)
  = match dfs with
    | [] => (Raise (ValueError "No objects to concatenate"),
             mkAggWorld fs1
               (lg1 ++ [LogErrorMsg "Could not preprocess results"]))
    | _ :: _ =>
        (Ok tt,
         mkAggWorld (to_csv B (combined_path_of date scaling_dir)
                            (concat dfs) fs1)
                    (lg1 ++ [ToCsv (combined_path_of date scaling_dir)]))
    end.
Proof.
  intros Hls runs fs1 dfs lg1.
  unfold process_scaling_results, bind at 1, os_listdir.
  cbn [Driver.fs Driver.log]. rewrite Hls. fold runs.
  unfold try_except at 1, bind at 1. rewrite extraction_loop. fold fs1.
  unfold bind at 1. rewrite collection_loop. cbn [app]. fold dfs.
  unfold bind at 1, lift. subst lg1.
  destruct dfs as [|df dfs']; cbn; by rewrite <- !app_assoc.
Qed.

Lemma extraction_log_views runs fs :
  created (extraction_log B scaling_dir overwrite runs fs)
  = map (run_path_of scaling_dir) runs
  /\ read (extraction_log B scaling_dir overwrite runs fs) = []
  /\ length (warnings (extraction_log B scaling_dir overwrite runs fs))
     = extraction_failures B scaling_dir overwrite runs fs.
Proof.
  revert fs. induction runs as [|run runs IH]; intros fs; [done|].
  cbn [extraction_log extraction_failures map].
  unfold created, read, warnings in *.
  cbn [omap list_omap created_of read_of warning_of].
  rewrite !omap_app.
  destruct (IH (snd (create_run_csv B (run_path_of scaling_dir run)
                                    overwrite fs))) as (-> & -> & <-).
  by destruct (fst (create_run_csv B _ overwrite fs)).
Qed.

Lemma collection_log_views runs fs :
  created (collection_log B scaling_dir runs fs) = []
  /\ read (collection_log B scaling_dir runs fs)
     = map (results_path_of scaling_dir) runs
  /\ length (warnings (collection_log B scaling_dir runs fs))
     + length (frames B scaling_dir runs fs) = length runs.
Proof.
  induction runs as [|run runs (IHc & IHr & IHw)]; [done|].
  cbn [collection_log map length].
  unfold created, read, warnings, frames in *.
  cbn [omap list_omap created_of read_of warning_of].
  rewrite !omap_app, IHc, IHr.
  destruct (read_csv B (results_path_of scaling_dir run) fs);
    cbn; repeat split; try done; rewrite ?length_app; cbn; lia.
Qed.

End WithBackend.

(** C5: the aggregation pass hands every selected run to [create_run_csv]
    and then to [pd.read_csv], whatever happened to the runs before it;
    each failure of either gives one warning in the log; the combined CSV
    is written from the frames of the runs that could be read, in order;
    and the pass raises exactly when there is no such frame. *)
Theorem aggregation_fault_tolerance (B : Backend) (date scaling_dir : string)
    (overwrite : bool) (fs0 : FS B) (entries : list string) :
  listdir B scaling_dir fs0 = Ok entries ->
  let runs := List.filter is_run entries in
  let fs1 := extract_all B scaling_dir overwrite runs fs0 in
  let dfs := frames B scaling_dir runs fs1 in
  length dfs <= length runs /\
  exists lg,
    process_scaling_results B date scaling_dir overwrite (mkAggWorld fs0 [])
    = (match dfs with
       | [] => Raise (ValueError "No objects to concatenate")
       | _ :: _ => Ok tt
       end,
       mkAggWorld
         (match dfs with
          | [] => fs1
          | _ :: _ => to_csv B (combined_path_of date scaling_dir)
                             (concat dfs) fs1
          end) lg)
    /\ created lg = map (run_path_of scaling_dir) runs
    /\ read lg = map (results_path_of scaling_dir) runs
    /\ length (warnings lg)
       = extraction_failures B scaling_dir overwrite runs fs0
         + (length runs - length dfs).
Proof.
  intros Hls runs fs1 dfs.
  pose proof (process_run B date scaling_dir overwrite fs0 [] entries Hls)
    as Hrun. cbn zeta in Hrun. fold runs fs1 dfs in Hrun.
  destruct (extraction_log_views B scaling_dir overwrite runs fs0)
    as (Hc1 & Hr1 & Hw1).
  destruct (collection_log_views B scaling_dir runs fs1)
    as (Hc2 & Hr2 & Hw2).
  fold dfs in Hw2. split; [lia|].
  exists ((extraction_log B scaling_dir overwrite runs fs0
             ++ collection_log B scaling_dir runs fs1)
            ++ [match dfs with
                | [] => LogErrorMsg "Could not preprocess results"
                | _ :: _ => ToCsv (combined_path_of date scaling_dir)
                end]).
  split; [rewrite Hrun; by destruct dfs|].
  unfold created, read, warnings in *.
  rewrite !omap_app, Hc1, Hc2, Hr1, Hr2, !length_app, Hw1.
  destruct dfs; cbn; rewrite ?app_nil_r; repeat split; try done;
    cbn in Hw2; lia.
Qed.

Lemma aggregation_fault_tolerance_witness :
  let B := disk_backend
             (fun p => if bool_decide (p = ["tp"; "sess-a"])
                       then Ok "0,loop_time,1.0"
                       else Raise (FileNotFoundError "rank_0.csv"))
             ["sess-a"; "results"; "sess-b"]
             (fun _ => Ok [[("loop_time", "0.1024")]])
             (fun _ => "loop_time") in
  exists lg d,
    process_scaling_results B "d" "tp" true
      (mkAggWorld (B:=B) (mkDisk ∅ []) [])
    = (Ok tt, mkAggWorld (B:=B) d lg)
    /\ created lg = [["tp"; "sess-a"]; ["tp"; "sess-b"]]
    /\ read lg = [["tp"; "results"; "sess-a"; "sess-a.csv"];
                  ["tp"; "results"; "sess-b"; "sess-b.csv"]]
    /\ length (warnings lg) = 2.
Proof.
  intros B.
  destruct (aggregation_fault_tolerance B "d" "tp" true (mkDisk ∅ [])
              ["sess-a"; "results"; "sess-b"] eq_refl)
    as (_ & lg & Hrun & Hc & Hr & Hw).
  exists lg. eexists. split; [rewrite Hrun; vm_compute; reflexivity|].
  split; [exact Hc|]. split; [exact Hr|].
  rewrite Hw. vm_compute. reflexivity.
Defined.

(** C10: the runs of an aggregation pass are the entries of the directory
    whose name contains ["sess"], in the order of the listing: exactly
    these are handed to [create_run_csv] and to [pd.read_csv], and the
    combined table is made of their frames only.  An entry without that
    substring, such as [results], is never touched. *)
Theorem runs_selected_by_substring (B : Backend) (date scaling_dir : string)
    (overwrite : bool) (fs0 : FS B) (entries : list string) :
  listdir B scaling_dir fs0 = Ok entries ->
  let runs := List.filter (contains "sess") entries in
  let fs1 := extract_all B scaling_dir overwrite runs fs0 in
  let w' := snd (process_scaling_results B date scaling_dir overwrite
                   (mkAggWorld fs0 [])) in
  created (log w') = map (run_path_of scaling_dir) runs
  /\ read (log w') = map (results_path_of scaling_dir) runs
  /\ fs w' = match frames B scaling_dir runs fs1 with
             | [] => fs1
             | _ :: _ =>
                 to_csv B (combined_path_of date scaling_dir)
                        (concat (frames B scaling_dir runs fs1)) fs1
             end
  /\ (forall d, In d runs <->
        In d entries /\ exists pre post, d = pre +:+ "sess" +:+ post)
  /\ (forall d, contains "sess" d = false ->
        ~ In (run_path_of scaling_dir d) (created (log w'))
        /\ ~ In (results_path_of scaling_dir d) (read (log w')))
  /\ contains "sess" "results" = false.
Proof.
  intros Hls.
  change (List.filter (contains "sess") entries)
    with (List.filter is_run entries).
  intros runs fs1 w'.
  pose proof (process_run B date scaling_dir overwrite fs0 [] entries Hls)
    as Hrun. cbn zeta in Hrun. fold runs fs1 in Hrun.
  destruct (extraction_log_views B scaling_dir overwrite runs fs0)
    as (Hc1 & Hr1 & _).
  destruct (collection_log_views B scaling_dir runs fs1) as (Hc2 & Hr2 & _).
  assert (created (log w') = map (run_path_of scaling_dir) runs
          /\ read (log w') = map (results_path_of scaling_dir) runs
          /\ fs w' = match frames B scaling_dir runs fs1 with
                     | [] => fs1
                     | _ :: _ =>
                         to_csv B (combined_path_of date scaling_dir)
                                (concat (frames B scaling_dir runs fs1)) fs1
                     end) as (Hc & Hr & Hfs).
  { subst w'. rewrite Hrun.
    unfold created, read in *.
    destruct (frames B scaling_dir runs fs1); cbn [snd log fs];
      rewrite !omap_app, Hc1, Hc2, Hr1, Hr2; cbn; by rewrite ?app_nil_r. }
  split; [done|]. split; [done|]. split; [done|].
  split; [|split; [|done]].
  - intros d. subst runs. unfold is_run.
    rewrite filter_In, contains_spec. tauto.
  - intros d Hd. rewrite Hc, Hr. split; intros Hin;
      apply in_map_iff in Hin as (d' & Heq & Hin');
      apply filter_In in Hin' as [_ Hin'];
      unfold run_path_of, results_path_of in Heq;
      injection Heq as Heq; unfold is_run in Hin'; congruence.
Qed.

Lemma runs_selected_by_substring_witness :
  let B := disk_backend (fun _ => Raise (FileNotFoundError "rank_0.csv"))
                        ["infer-sess-N1"; "results"] (fun _ => Raise IndexError)
                        (fun _ => "") in
  created (log (snd (process_scaling_results B "2022-03-01"
                       "inference-scaling" true
                       (mkAggWorld (B:=B) (mkDisk ∅ []) []))))
  = [["inference-scaling"; "infer-sess-N1"]].
Proof.
  intros B.
  exact (proj1 (runs_selected_by_substring B "2022-03-01" "inference-scaling"
                  true (mkDisk ∅ []) ["infer-sess-N1"; "results"] eq_refl)).
Defined.

End AggFacts.

(** ** The extraction model: passes without the overwrite flag *)

Module DiskFacts.
Import Py Driver AggObserve AggFacts.

Section WithDisk.
Variable raw : Path -> result string.
Variable entries : list string.
Variable parse_csv : string -> result DataFrame.
Variable render_csv : DataFrame -> string.
Variables (date scaling_dir : string).

Let B := disk_backend raw entries parse_csv render_csv.
Let runs := List.filter is_run entries.
Let csv := results_path_of scaling_dir.
Let dir := run_path_of scaling_dir.
Let step (overwrite : bool) (d : Disk) (run : string) : Disk :=
  snd (create_run_csv_spec raw (dir run) overwrite d).

Lemma step_unfold overwrite d run :
  step overwrite d run
  = if bool_decide (is_Some (disk_files d !! csv run)) && negb overwrite
    then d
    else match raw (dir run) with
         | Ok content => mkDisk (<[csv run := content]> (disk_files d))
                                (extracted d ++ [dir run])
         | Raise _ => mkDisk (disk_files d) (extracted d ++ [dir run])
         end.
Proof.
  subst step csv dir. cbn beta.
  unfold create_run_csv_spec, run_path_of, results_path_of. cbn.
  destruct (bool_decide _ && negb overwrite); [done|].
  by destruct (raw _).
Qed.

Lemma extract_all_fold overwrite rs d :
  extract_all B scaling_dir overwrite rs d = fold_left (step overwrite) rs d.
Proof. reflexivity. Qed.

Lemma csv_inj run run' : csv run = csv run' -> run = run'.
Proof. subst csv. unfold results_path_of. by intros [= ?]. Qed.

Lemma csv_not_combined run : csv run <> combined_path_of date scaling_dir.
Proof. subst csv. unfold results_path_of, combined_path_of. by intros [= ?]. Qed.

(** A file that exists is still there after any step. *)
Lemma step_keeps overwrite d run p :
  is_Some (disk_files d !! p) -> is_Some (disk_files (step overwrite d run) !! p).
Proof.
  intros Hp. rewrite step_unfold.
  destruct (bool_decide _ && negb overwrite); [done|].
  destruct (raw (dir run)); cbn; [|done].
  destruct (decide (csv run = p)) as [->|Hne].
  - rewrite lookup_insert_eq. by eexists.
  - by rewrite lookup_insert_ne.
Qed.

Lemma fold_keeps overwrite rs d p :
  is_Some (disk_files d !! p) ->
  is_Some (disk_files (fold_left (step overwrite) rs d) !! p).
Proof.
  revert d. induction rs as [|run rs IH]; intros d Hp; [done|].
  cbn [fold_left]. by apply IH, step_keeps.
Qed.

(** After the step of a run, its CSV exists unless its raw files cannot be
    read. *)
Lemma step_settles overwrite d run :
  is_Some (disk_files (step overwrite d run) !! csv run)
  \/ is_ok (raw (dir run)) = false.
Proof.
  rewrite step_unfold.
  destruct (bool_decide (is_Some (disk_files d !! csv run))) eqn:Hex.
  - apply bool_decide_eq_true in Hex. left.
    destruct (negb overwrite); cbn [andb]; [done|].
    destruct (raw (dir run)); cbn; [|done].
    rewrite lookup_insert_eq. by eexists.
  - cbn [andb]. destruct (raw (dir run)); cbn; [left|by right].
    rewrite lookup_insert_eq. by eexists.
Qed.

Lemma fold_settles overwrite rs d run :
  In run rs ->
  is_Some (disk_files (fold_left (step overwrite) rs d) !! csv run)
  \/ is_ok (raw (dir run)) = false.
Proof.
  revert d. induction rs as [|run' rs IH]; intros d Hin; [done|].
  cbn [fold_left]. destruct Hin as [->|Hin]; [|by apply IH].
  destruct (step_settles overwrite d run) as [Hex|Hraw]; [left|by right].
  by apply fold_keeps.
Qed.

(** Without the overwrite flag, a step changes no file that exists, and it
    reads the raw files of its run only when the CSV of the run is
    missing. *)
Lemma step_false_existing d run p :
  is_Some (disk_files d !! p) ->
  disk_files (step false d run) !! p = disk_files d !! p.
Proof.
  intros Hp. rewrite step_unfold. cbn [negb]. rewrite andb_true_r.
  destruct (bool_decide (is_Some (disk_files d !! csv run))) eqn:Hex; [done|].
  apply bool_decide_eq_false in Hex.
  destruct (raw (dir run)); cbn; [|done].
  rewrite lookup_insert_ne; [done|]. by intros <-.
Qed.

Lemma fold_false_existing rs d p :
  is_Some (disk_files d !! p) ->
  disk_files (fold_left (step false) rs d) !! p = disk_files d !! p.
Proof.
  revert d. induction rs as [|run rs IH]; intros d Hp; [done|].
  cbn [fold_left]. rewrite IH by by apply step_keeps.
  by apply step_false_existing.
Qed.

Lemma step_false_work d run :
  exists rs,
    extracted (step false d run) = extracted d ++ map dir rs
    /\ (forall r, In r rs -> r = run /\ disk_files d !! csv run = None).
Proof.
  rewrite step_unfold. cbn [negb]. rewrite andb_true_r.
  destruct (bool_decide (is_Some (disk_files d !! csv run))) eqn:Hex.
  - exists []. by rewrite app_nil_r.
  - apply bool_decide_eq_false in Hex.
    assert (disk_files d !! csv run = None) as Hnone
      by (by destruct (disk_files d !! csv run); [destruct Hex; eexists|]).
    exists [run]. destruct (raw (dir run)); cbn;
      (split; [done|by intros r [<-|[]]]).
Qed.

Lemma fold_false_work rs d :
  exists rs',
    extracted (fold_left (step false) rs d) = extracted d ++ map dir rs'
    /\ (forall r, In r rs' -> In r rs /\ disk_files d !! csv r = None).
Proof.
  revert d. induction rs as [|run rs IH]; intros d.
  - exists []. by rewrite app_nil_r.
  - cbn [fold_left].
    destruct (step_false_work d run) as (rs1 & He1 & H1).
    destruct (IH (step false d run)) as (rs2 & He2 & H2).
    exists (rs1 ++ rs2). split.
    + by rewrite He2, He1, map_app, app_assoc.
    + intros r Hr. apply in_app_or in Hr as [Hr|Hr].
      * destruct (H1 r Hr) as [-> ?]. split; [by left|done].
      * destruct (H2 r Hr) as [Hin Hnone]. split; [by right|].
        destruct (disk_files d !! csv r) eqn:Hd; [|done].
        rewrite step_false_existing in Hnone by (by rewrite Hd; eexists).
        congruence.
Qed.

(** When every run either has its CSV or has unreadable raw files, the
    first loop of a pass without the overwrite flag changes no file. *)
Lemma fold_false_settled rs d :
  (forall run, In run rs ->
     is_Some (disk_files d !! csv run) \/ is_ok (raw (dir run)) = false) ->
  disk_files (fold_left (step false) rs d) = disk_files d
  /\ exists rs',
       extracted (fold_left (step false) rs d) = extracted d ++ map dir rs'
       /\ (forall r, In r rs' ->
             In r rs /\ disk_files d !! csv r = None
             /\ is_ok (raw (dir r)) = false).
Proof.
  revert d. induction rs as [|run rs IH]; intros d Hset.
  - split; [done|]. exists []. by rewrite app_nil_r.
  - cbn [fold_left].
    assert (disk_files (step false d run) = disk_files d
            /\ exists rs1,
                 extracted (step false d run) = extracted d ++ map dir rs1
                 /\ (forall r, In r rs1 ->
                       r = run /\ disk_files d !! csv r = None
                       /\ is_ok (raw (dir r)) = false))
      as (Hf & rs1 & He1 & H1).
    { rewrite step_unfold. cbn [negb]. rewrite andb_true_r.
      destruct (bool_decide (is_Some (disk_files d !! csv run))) eqn:Hex.
      - split; [done|]. exists []. by rewrite app_nil_r.
      - apply bool_decide_eq_false in Hex.
        destruct (Hset run ltac:(by left)) as [?|Hraw]; [done|].
        assert (disk_files d !! csv run = None) as Hnone
          by (by destruct (disk_files d !! csv run); [destruct Hex; eexists|]).
        destruct (raw (dir run)) eqn:Hr; [done|]. cbn.
        split; [done|]. exists [run]. split; [done|].
        intros r [<-|[]]. by rewrite Hr. }
    destruct (IH (step false d run)) as (Hf2 & rs2 & He2 & H2).
    { intros r Hr. rewrite Hf. apply Hset. by right. }
    split; [by rewrite Hf2|].
    exists (rs1 ++ rs2). split.
    + by rewrite He2, He1, map_app, app_assoc.
    + intros r Hr. apply in_app_or in Hr as [Hr|Hr].
      * destruct (H1 r Hr) as (-> & ? & ?). split; [by left|done].
      * destruct (H2 r Hr) as (Hin & Hnone & Hraw).
        split; [by right|]. by rewrite <- Hf.
Qed.

(** The disk a pass leaves. *)
Lemma disk_pass_unfold overwrite d :
  let d1 := fold_left (step overwrite) runs d in
  disk_pass raw entries parse_csv render_csv date scaling_dir overwrite d
  = match frames B scaling_dir runs d1 with
    | [] => d1
    | _ :: _ =>
        mkDisk (<[combined_path_of date scaling_dir
                  := render_csv (concat (frames B scaling_dir runs d1))]>
                  (disk_files d1))
               (extracted d1)
    end.
Proof.
  intros d1. unfold disk_pass. fold B.
  pose proof (process_run B date scaling_dir overwrite d [] entries eq_refl)
    as Hrun.
  cbn zeta in Hrun. fold runs in Hrun. rewrite extract_all_fold in Hrun.
  fold d1 in Hrun. rewrite Hrun.
  by destruct (frames B scaling_dir runs d1).
Qed.

Lemma disk_pass_csv overwrite d run :
  disk_files (disk_pass raw entries parse_csv render_csv date scaling_dir
                        overwrite d) !! csv run
  = disk_files (fold_left (step overwrite) runs d) !! csv run.
Proof.
  rewrite disk_pass_unfold. cbn zeta.
  destruct (frames B scaling_dir runs _); [done|]. cbn.
  rewrite lookup_insert_ne; [done|]. intros Heq. by apply (csv_not_combined run).
Qed.

Lemma disk_pass_extracted overwrite d :
  extracted (disk_pass raw entries parse_csv render_csv date scaling_dir
                       overwrite d)
  = extracted (fold_left (step overwrite) runs d).
Proof.
  rewrite disk_pass_unfold. cbn zeta.
  by destruct (frames B scaling_dir runs _).
Qed.

End WithDisk.

(** C6, on the extraction model.  A pass without the overwrite flag leaves
    the per-run CSV of every run that has one exactly as it is and does not
    read the raw files of that run.  Hence a second pass, run without the
    flag after any first pass, leaves every per-run CSV as the first pass
    left it; the only raw files it reads again are those of runs that still
    have no CSV because their raw files cannot be read. *)
Theorem extraction_idempotent (raw : Path -> result string)
    (entries : list string) (parse_csv : string -> result DataFrame)
    (render_csv : DataFrame -> string) (date scaling_dir : string) :
  let pass := disk_pass raw entries parse_csv render_csv date scaling_dir in
  let csv := results_path_of scaling_dir in
  let dir := run_path_of scaling_dir in
  (forall d run,
     is_Some (disk_files d !! csv run) ->
     disk_files (pass false d) !! csv run = disk_files d !! csv run
     /\ exists rs,
          extracted (pass false d) = extracted d ++ map dir rs
          /\ ~ In run rs)
  /\ (forall overwrite d0,
     let d1 := pass overwrite d0 in
     let d2 := pass false d1 in
     (forall run, disk_files d2 !! csv run = disk_files d1 !! csv run)
     /\ exists rs,
          extracted d2 = extracted d1 ++ map dir rs
          /\ (forall run, In run rs ->
                In run (List.filter is_run entries)
                /\ disk_files d1 !! csv run = None
                /\ is_ok (raw (dir run)) = false)).
Proof.
  intros pass csv dir. subst pass csv dir. cbn beta. split.
  - intros d run Hex. split.
    + rewrite disk_pass_csv. by apply fold_false_existing.
    + rewrite disk_pass_extracted.
      destruct (fold_false_work raw scaling_dir (List.filter is_run entries) d)
        as (rs & He & Hrs).
      exists rs. split; [done|]. intros Hin.
      destruct (Hrs run Hin) as [_ Hnone].
      rewrite Hnone in Hex. by destruct Hex.
  - intros overwrite d0 d1 d2.
    assert (forall run, In run (List.filter is_run entries) ->
              is_Some (disk_files d1 !! results_path_of scaling_dir run)
              \/ is_ok (raw (run_path_of scaling_dir run)) = false) as Hset.
    { intros run Hin. subst d1. rewrite disk_pass_csv.
      by apply fold_settles. }
    destruct (fold_false_settled raw scaling_dir
                (List.filter is_run entries) d1 Hset)
      as (Hf & rs & He & Hrs).
    split.
    + intros run. subst d2. by rewrite disk_pass_csv, Hf.
    + exists rs. subst d2. by rewrite disk_pass_extracted.
Qed.

(** A sweep directory with two runs, of which only the first has readable
    raw files: the first pass reads both, the second pass reads the second
    again and nothing else, and the CSV of the first run is the same after
    both. *)
Example extraction_twice :
  let raw := fun p : Path =>
    if bool_decide (p = ["tp"; "throughput-sess-a"])
    then Ok "rank,loop_time" else Raise (FileNotFoundError "rank_0.csv") in
  let pass := disk_pass raw ["throughput-sess-a"; "results";
                             "throughput-sess-b"]
                        (fun _ => Ok []) (fun _ => "") "2022-03-01" "tp" in
  let d1 := pass false (mkDisk ∅ []) in
  let d2 := pass false d1 in
  extracted d1 = [["tp"; "throughput-sess-a"]; ["tp"; "throughput-sess-b"]]
  /\ extracted d2 = extracted d1 ++ [["tp"; "throughput-sess-b"]]
  /\ disk_files d1 !! ["tp"; "results"; "throughput-sess-a";
                       "throughput-sess-a.csv"] = Some "rank,loop_time"
  /\ disk_files d2 !! ["tp"; "results"; "throughput-sess-a";
                       "throughput-sess-a.csv"] = Some "rank,loop_time".
Proof.
  intros raw pass d1 d2.
  split; [|split; [|split]]; vm_compute; reflexivity.
Qed.

End DiskFacts.

(** ** Throughput of a sample *)

Module PlotterFacts.
Import Py Plotter.



End PlotterFacts.

(** ** More on the permutation generator *)

Module ItertoolsMore.
Import Itertools ItertoolsFacts.

Section Product.
Context {A : Type}.
Implicit Types (pools : list (list A)) (pool : list A).

(** X4: the tuples of [product] are exactly the combinations that take one
    candidate of every axis, in the order of the axes: none is invented and
    none is left out. *)
Theorem product_combinations pools (t : list A) :
  In t (product pools) <-> Forall2 (fun x pool => In x pool) t pools.
Proof.
  revert t. induction pools as [|pool pools IH]; intros t.
  - rewrite product_nil. split.
    + intros [<-|[]]. constructor.
    + intros Ht. inversion Ht. by left.
  - rewrite product_cons, in_flat_map. split.
    + intros (x & Hx & Ht). apply in_map_iff in Ht as (t' & <- & Ht').
      constructor; [done|]. by apply IH.
    + intros Ht. inversion Ht as [|x pool' t' pools' Hx Ht']; subst.
      exists x. split; [done|]. apply in_map_iff. exists t'.
      split; [done|]. by apply IH.
Qed.

Lemma NoDup_blocks pool (tuples : list (list A)) :
  List.NoDup pool -> List.NoDup tuples ->
  List.NoDup (flat_map (fun x => map (cons x) tuples) pool).
Proof.
  intros Hpool Htuples. induction Hpool as [|x pool Hx Hpool IH]; cbn.
  - constructor.
  - apply NoDup_ListNoDup, NoDup_app. split; [|split].
    + apply (NoDup_fmap_2 (cons x)). by apply NoDup_ListNoDup.
    + intros t Ht Ht'. apply list_elem_of_In, in_map_iff in Ht as (t1 & <- & _).
      apply list_elem_of_In, in_flat_map in Ht' as (y & Hy & Ht').
      apply in_map_iff in Ht' as (t2 & [= <- _] & _). done.
    + by apply NoDup_ListNoDup.
Qed.

(** X5: when no axis lists a candidate twice, no tuple comes twice. *)
Theorem product_distinct pools :
  Forall (fun pool => List.NoDup pool) pools -> List.NoDup (product pools).
Proof.
  induction 1 as [|pool pools Hpool Hpools IH].
  - rewrite product_nil. repeat constructor. by intros [].
  - rewrite product_cons. by apply NoDup_blocks.
Qed.

End Product.

Lemma product_distinct_witness :
  List.NoDup (product [[128%N; 256%N]; [32%N]; [1024%N; 8192%N]]).
Proof.
  apply product_distinct. repeat constructor; cbn; intros H;
    repeat (destruct H as [H|H]; [discriminate H|]); done.
Defined.

End ItertoolsMore.

(** ** Views of a loop *)

Module ViewFacts.

Lemma concat_imap_nil {A B} (f : nat -> A -> list B) (l : list A) :
  (forall j x, f j x = []) -> concat (imap f l) = [].
Proof.
  revert f. induction l as [|x l IH]; intros f Hf; [done|].
  rewrite imap_cons. cbn. rewrite Hf. apply IH. intros j y. apply Hf.
Qed.

End ViewFacts.

(** ** Orchestrators of [driver.py] *)

Module DatabaseFacts.
Import Py SmartSim Observe.

Lemma fold_batch_args (args : list (string * option string)) db :
  fold_left (fun d kv => set_batch_arg (fst kv) (snd kv) d) args db
  = mkOrchestrator (db_id db) (db_port db) (db_node_count db) (db_batch db)
      (db_interface db) (db_threads_per_queue db) (db_walltime db)
      (db_batch_args db ++ args) (db_hosts db) (db_cpus db).
Proof.
  revert db. induction args as [|kv args IH]; intros db; cbn [fold_left].
  - rewrite app_nil_r. by destruct db.
  - destruct kv as [k v]. rewrite IH. cbn. by rewrite <- app_assoc.
Qed.

(** X3: [start_database] makes one orchestrator, with the next free
    identity, generates it and starts it.  The wall time and the batch
    arguments are applied only when the orchestrator runs as a batch job,
    and then all the arguments are, in their order; the hosts and the CPUs
    are as given. *)
Theorem start_database_settings (exp : Experiment) (port nodes cpus : N)
    (tpq : option N) (net_ifname : string) (run_as_batch : bool)
    (batch_args : list (string * option string)) (hosts : list string)
    (w : World) :
  let db :=
    mkOrchestrator (next_db w) port nodes run_as_batch (Some net_ifname) tpq
      (if run_as_batch then Some "00:10:00" else None)
      (if run_as_batch then batch_args else [])
      hosts (Some cpus) in
  Driver.start_database exp port nodes cpus tpq net_ifname run_as_batch
                        batch_args hosts w
  = (Ok db,
     mkWorld (trace w ++ [GenerateDb (next_db w); StartDb db])
             (active w ++ [next_db w]) (S (next_db w)) (queries w)
             (next_uuid w) (files w)).
Proof.
  unfold Driver.start_database, bind, new_orchestrator. cbn.
  rewrite fold_batch_args.
  destruct run_as_batch, hosts; cbn; by rewrite <- ?app_assoc.
Qed.

End DatabaseFacts.

(** ** Setting the ResNet model in [inference_standard] *)

Module ResnetFacts.
Import Py SmartSim Itertools Observe Views LoopFacts DriverFacts ViewFacts.

Section WithEnv.
Variable env : Env.
Variables (exp : Experiment) (run_db_as_batch : bool)
          (batch_args : list (string * option string))
          (db_hosts : list string) (db_port : N) (device : string)
          (num_devices : N) (net_ifname : string).

Let run := Driver.inference_standard_run env exp run_db_as_batch batch_args
             db_hosts db_port device num_devices net_ifname.



End WithEnv.






End ResnetFacts.

(** ** More on the sweep of [cpp-throughput/driver.py] *)

Module CppMore.
Import Py SmartSim Itertools Observe Views LoopFacts CppFacts.

Ltac index4 perm H :=
  do 4 (destruct perm as [|? perm]; [cbn in H; lia|]).

Lemma turn_views_app evs1 evs2 ds1 ds2 errs1 errs2 :
  turn_views evs1 ds1 errs1 -> turn_views evs2 ds2 errs2 ->
  turn_views (evs1 ++ evs2) (ds1 ++ ds2) (errs1 ++ errs2).
Proof.
  intros [Hd1 He1 Hc1 Ha1] [Hd2 He2 Hc2 Ha2].
  constructor; unfold deployments, errors, collected, allocations in *;
    rewrite omap_app;
    [rewrite Hd1, Hd2|rewrite He1, He2|rewrite Hc1, Hc2|rewrite Ha1, Ha2];
    done.
Qed.

Section WithEnv.
Variable env : Env.
Variables (db_cpus db_tpq db_port : N) (allocation : string).

Let step := CppThroughput.throughput_step env db_cpus db_tpq db_port
                                          allocation.
Let names (acc : list (string * string * list N)) : list string :=
  map (fun d => snd (fst d)) acc.

Lemma cpp_turn_completed perm acc w :
  4 <= length perm -> active w = [] ->
  scheduler env (queries w) = STATUS_COMPLETED ->
  exists acc' w' evs,
    step perm acc w = (Ok (Continue, acc'), w')
    /\ trace w' = trace w ++ evs
    /\ turn_views evs (cpp_block (next_db w) perm) []
    /\ names acc' = names acc ++ [cpp_run_name perm]
    /\ active w' = []
    /\ queries w' = S (queries w)
    /\ next_db w' = S (next_db w).
Proof.
  intros Hlen Ha Hst. subst step names. index4 perm Hlen.
  unfold CppThroughput.throughput_step. cbn. rewrite Hst, Ha. cbn.
  do 3 eexists. split; [reflexivity|]. cbn.
  rewrite <- !app_assoc. cbn. split; [reflexivity|].
  split; [by constructor|]. rewrite map_app.
  repeat split; try done. by case_decide.
Qed.

Lemma cpp_turn_failed perm acc w :
  4 <= length perm -> active w = [] ->
  scheduler env (queries w) ≠ STATUS_COMPLETED ->
  exists w' evs,
    step perm acc w = (Ok (Break, acc), w')
    /\ trace w' = trace w ++ evs
    /\ turn_views evs
         [DStart (next_db w) (nth 2 perm 0%N);
          DRun (cpp_run_name perm) [next_db w]]
         ["ERROR: One of the scaling tests failed " +:+ cpp_run_name perm]
    /\ active w' = [next_db w].
Proof.
  intros Hlen Ha Hst. subst step. index4 perm Hlen.
  unfold CppThroughput.throughput_step. cbn.
  rewrite bool_decide_true by done. rewrite Ha. cbn.
  do 2 eexists. split; [reflexivity|]. cbn.
  rewrite <- !app_assoc. cbn. split; [reflexivity|].
  split; [by constructor|done].
Qed.

Lemma cpp_blocks_cons db perm perms :
  concat (imap (fun j p => cpp_block (db + j) p) (perm :: perms))
  = cpp_block db perm
    ++ concat (imap (fun j p => cpp_block (S db + j) p) perms).
Proof.
  rewrite imap_cons. cbn [concat]. rewrite Nat.add_0_r. do 2 f_equal.
  apply imap_ext. intros j p _. cbn. f_equal. lia.
Qed.

(** The turns of the permutations whose sessions complete. *)
Lemma cpp_loop_completed pre : forall post acc w,
  Forall (fun perm => 4 <= length perm) pre ->
  active w = [] ->
  (forall k, k < length pre ->
     scheduler env (queries w + k) = STATUS_COMPLETED) ->
  exists acc1 w1 evs,
    for_each_break (pre ++ post) acc step w
    = for_each_break post acc1 step w1
    /\ trace w1 = trace w ++ evs
    /\ turn_views evs
         (concat (imap (fun j p => cpp_block (next_db w + j) p) pre)) []
    /\ names acc1 = names acc ++ map cpp_run_name pre
    /\ active w1 = []
    /\ queries w1 = queries w + length pre
    /\ next_db w1 = next_db w + length pre.
Proof.
  induction pre as [|perm pre IH]; intros post acc w Hpre Ha Hok.
  - exists acc, w, []. cbn. rewrite !app_nil_r.
    repeat split; first [done | lia].
  - apply Forall_cons in Hpre as [Hperm Hpre].
    cbn [app]. rewrite for_each_break_cons.
    specialize (Hok 0 ltac:(cbn; lia)) as Hok0. rewrite Nat.add_0_r in Hok0.
    destruct (cpp_turn_completed perm acc w Hperm Ha Hok0)
      as (acc0 & w0 & evs0 & -> & Ht0 & Hv0 & Hn0 & Ha0 & Hq0 & Hdb0).
    destruct (IH post acc0 w0 Hpre Ha0)
      as (acc1 & w1 & evs1 & -> & Ht1 & Hv1 & Hn1 & Ha1 & Hq1 & Hdb1).
    { intros k Hk. rewrite Hq0.
      replace (S (queries w) + k) with (queries w + S k) by lia.
      apply Hok. cbn. lia. }
    exists acc1, w1, (evs0 ++ evs1). split; [done|].
    rewrite Ht1, Ht0, <- app_assoc. split; [done|].
    rewrite cpp_blocks_cons. rewrite Hdb0 in Hv1. split.
    { by apply (turn_views_app _ _ _ _ [] []). }
    rewrite Hn1, Hn0, <- app_assoc. cbn [length map app].
    repeat split; first [done | lia].
Qed.

End WithEnv.

Lemma max_spec (l : list N) :
  l <> [] ->
  exists n, Py.max l = Ok n /\ In n l /\ forall c, In c l -> (c <= n)%N.
Proof.
  destruct l as [|x xs]; [done|]. intros _. cbn [Py.max].
  eexists. split; [reflexivity|].
  revert x. induction xs as [|y xs IH]; intros x; cbn [fold_left].
  - split; [by left|]. intros c [<-|[]]. lia.
  - destruct (IH (N.max x y)) as [Hin Hle]. split.
    + destruct Hin as [Hin|Hin]; [|by right; right].
      rewrite <- Hin. destruct (N.max_spec x y) as [[_ ->]|[_ ->]];
        [right; by left|by left].
    + intros c Hc.
      pose proof (Hle (N.max x y) (or_introl eq_refl)) as Hm.
      destruct Hc as [<-|[<-|Hc]]; [lia|lia|apply Hle; by right].
Qed.

(** X6: when every session completes, the sweep of
    [cpp-throughput/driver.py] goes through all the permutations.  For the
    [j]-th one it starts an orchestrator with the permutation's number of
    database nodes, launches the session and then its post-processing job
    while exactly that orchestrator is up, and stops the orchestrator.  No
    error is logged, no orchestrator is left running, the statistics step
    is handed the sessions of all the permutations, and the allocation,
    obtained once with [max(client_nodes)] nodes, is released. *)
Theorem cpp_sweep_all_completed (env : Env) (db_nodes : list N)
    (db_cpus db_tpq db_port : N) (device : string)
    (clients_per_node client_nodes tensor_bytes : list N) :
  let perms :=
    product [client_nodes; clients_per_node; db_nodes; tensor_bytes] in
  client_nodes <> [] ->
  (forall k, k < length perms -> scheduler env k = STATUS_COMPLETED) ->
  exists n w',
    Py.max client_nodes = Ok n
    /\ CppThroughput.throughput env db_nodes db_cpus db_tpq db_port device
         clients_per_node client_nodes tensor_bytes init
       = (Ok tt, w')
    /\ deployments (trace w') = concat (imap cpp_block perms)
    /\ errors (trace w') = []
    /\ collected (trace w') = [map cpp_run_name perms]
    /\ allocations (trace w') = [inl n; inr (allocation_id env)]
    /\ active w' = [].
Proof.
  intros perms Hne Hok.
  destruct (max_spec client_nodes Hne) as (n & Hmax & _).
  exists n. unfold CppThroughput.throughput, bind, lift. fold perms.
  rewrite Hmax.
  unfold CppThroughput.slurm_get_allocation, bind, emit, ret.
  match goal with |- context [for_each_break perms [] _ ?w0] =>
    set (w1 := w0) end.
  destruct (cpp_loop_completed env db_cpus db_tpq db_port (allocation_id env)
              perms [] [] w1 (SweepFacts.cpp_perms_index _ _ _ _) eq_refl)
    as (acc & w2 & evs & Hrun & Ht & [Hd He Hc Hal] & Hn & Ha & _).
  { intros k Hk. by apply Hok. }
  rewrite app_nil_r in Hrun. rewrite Hrun. cbn [for_each_break ret].
  eexists. split; [done|]. split; [reflexivity|]. cbn.
  rewrite Ht. subst w1. cbn [trace].
  unfold deployments, errors, collected, allocations in *.
  rewrite !omap_app, ?Hd, ?He, ?Hc, ?Hal. cbn.
  rewrite ?app_nil_r. cbn in Hn. rewrite Hn.
  repeat split; done.
Qed.

Lemma cpp_sweep_all_completed_witness :
  let env := mkEnv (fun _ => "0f8fad5b-d9cb-469f-a165-70867728950e")
               (fun _ => STATUS_COMPLETED) (fun _ => "nid00001:6780")
               "364139" "/lus/scratch" "0.4.0" "/opt/redis/bin/redis-server"
               "2022-03-01" in
  exists n w',
    Py.max [160%N] = Ok n
    /\ CppThroughput.throughput env [15%N] 36 4 6780 "GPU" [48%N] [160%N]
         [1024%N; 8192%N] init
       = (Ok tt, w')
    /\ deployments (trace w')
       = concat (imap cpp_block
                   (product [[160%N]; [48%N]; [15%N]; [1024%N; 8192%N]]))
    /\ errors (trace w') = []
    /\ collected (trace w')
       = [map cpp_run_name
            (product [[160%N]; [48%N]; [15%N]; [1024%N; 8192%N]])]
    /\ allocations (trace w') = [inl n; inr (allocation_id env)]
    /\ active w' = [].
Proof.
  intros env.
  apply (cpp_sweep_all_completed env [15%N] 36 4 6780 "GPU" [48%N] [160%N]
           [1024%N; 8192%N]); [discriminate|done].
Defined.

(** X7: when the session of permutation [i] is the first that does not
    complete, the permutations before it went through their whole turn;
    the orchestrator started for permutation [i] is never stopped and is
    still up when the sweep returns; one error is logged, naming that
    session; the statistics step is handed the sessions of the
    permutations before [i] only; the allocation is released. *)
Theorem cpp_sweep_stops_at_failure (env : Env) (db_nodes : list N)
    (db_cpus db_tpq db_port : N) (device : string)
    (clients_per_node client_nodes tensor_bytes : list N) (i : nat) :
  let perms :=
    product [client_nodes; clients_per_node; db_nodes; tensor_bytes] in
  let failed := nth i perms [] in
  i < length perms ->
  (forall k, k < i -> scheduler env k = STATUS_COMPLETED) ->
  scheduler env i ≠ STATUS_COMPLETED ->
  exists n w',
    Py.max client_nodes = Ok n
    /\ CppThroughput.throughput env db_nodes db_cpus db_tpq db_port device
         clients_per_node client_nodes tensor_bytes init
       = (Ok tt, w')
    /\ deployments (trace w')
       = concat (imap cpp_block (take i perms))
         ++ [DStart i (nth 2 failed 0%N); DRun (cpp_run_name failed) [i]]
    /\ errors (trace w')
       = ["ERROR: One of the scaling tests failed " +:+ cpp_run_name failed]
    /\ collected (trace w') = [map cpp_run_name (take i perms)]
    /\ allocations (trace w') = [inl n; inr (allocation_id env)]
    /\ active w' = [i].
Proof.
  intros perms failed Hi Hok Hfail.
  assert (client_nodes <> []) as Hne
    by (apply (SweepFacts.nonempty_product_axes
                 _ [clients_per_node; db_nodes; tensor_bytes]);
        fold perms; lia).
  destruct (max_spec client_nodes Hne) as (n & Hmax & _).
  exists n. unfold CppThroughput.throughput, bind, lift. fold perms.
  rewrite Hmax.
  unfold CppThroughput.slurm_get_allocation, bind, emit, ret.
  match goal with |- context [for_each_break perms [] _ ?w0] =>
    set (w1 := w0) end.
  pose proof (SweepFacts.cpp_perms_index client_nodes clients_per_node
                db_nodes tensor_bytes) as Hperms. fold perms in Hperms.
  assert (perms = take i perms ++ failed :: drop (S i) perms) as Hsplit.
  { rewrite <- (take_drop i perms) at 1. f_equal.
    subst failed. rewrite (drop_S perms (nth i perms []) i); [done|].
    destruct (lookup_lt_is_Some_2 perms i Hi) as [p Hp].
    by rewrite (nth_lookup_Some _ _ [] _ Hp). }
  rewrite Hsplit in Hperms. apply Forall_app in Hperms as [Hpre Hpost].
  apply Forall_cons in Hpost as [Hfailed _].
  assert (length (take i perms) = i) as Hlen by (rewrite length_take; lia).
  destruct (cpp_loop_completed env db_cpus db_tpq db_port (allocation_id env)
              (take i perms) (failed :: drop (S i) perms) [] w1 Hpre eq_refl)
    as (acc & w2 & evs & Hrun & Ht & [Hd He Hc Hal] & Hn & Ha & Hq & Hdb).
  { intros k Hk. rewrite Hlen in Hk. by apply Hok. }
  rewrite <- Hsplit in Hrun. rewrite Hrun, for_each_break_cons.
  destruct (cpp_turn_failed env db_cpus db_tpq db_port (allocation_id env)
              failed acc w2 Hfailed Ha)
    as (w3 & evs3 & -> & Ht3 & [Hd3 He3 Hc3 Hal3] & Ha3).
  { rewrite Hq, Hlen. by subst w1. }
  eexists. split; [done|]. split; [reflexivity|]. cbn.
  rewrite Hlen in Hdb. cbn in Hdb.
  rewrite Ht3, Ht, Ha3, Hdb. subst w1. cbn [trace next_db].
  unfold deployments, errors, collected, allocations in *.
  rewrite !omap_app, ?Hd, ?He, ?Hc, ?Hal, ?Hd3, ?He3, ?Hc3, ?Hal3, ?Hdb. cbn.
  rewrite ?app_nil_r. cbn in Hn. rewrite Hn.
  repeat split; done.
Qed.

Lemma cpp_sweep_stops_at_failure_witness :
  let env := mkEnv (fun _ => "0f8fad5b-d9cb-469f-a165-70867728950e")
               (fun k => match k with
                         | 1 => STATUS_FAILED
                         | _ => STATUS_COMPLETED
                         end)
               (fun _ => "nid00001:6780")
               "364139" "/lus/scratch" "0.4.0" "/opt/redis/bin/redis-server"
               "2022-03-01" in
  let perms := product [[160%N]; [48%N]; [15%N]; [1024%N; 8192%N; 16384%N]] in
  exists n w',
    Py.max [160%N] = Ok n
    /\ CppThroughput.throughput env [15%N] 36 4 6780 "GPU" [48%N] [160%N]
         [1024%N; 8192%N; 16384%N] init
       = (Ok tt, w')
    /\ deployments (trace w')
       = concat (imap cpp_block (take 1 perms))
         ++ [DStart 1 (nth 2 (nth 1 perms []) 0%N);
             DRun (cpp_run_name (nth 1 perms [])) [1]]
    /\ errors (trace w')
       = ["ERROR: One of the scaling tests failed "
          +:+ cpp_run_name (nth 1 perms [])]
    /\ collected (trace w') = [map cpp_run_name (take 1 perms)]
    /\ allocations (trace w') = [inl n; inr (allocation_id env)]
    /\ active w' = [1].
Proof.
  intros env perms.
  apply (cpp_sweep_stops_at_failure env [15%N] 36 4 6780 "GPU" [48%N]
           [160%N] [1024%N; 8192%N; 16384%N] 1).
  - vm_compute. lia.
  - intros k Hk. assert (k = 0) as -> by lia. done.
  - discriminate.
Defined.

Section AnyStatus.
Variable env : Env.
Variables (db_cpus db_tpq db_port : N) (n : N).

Let step := CppThroughput.throughput_step env db_cpus db_tpq db_port
                                          (allocation_id env).

Lemma cpp_turn_any perm acc w :
  4 <= length perm -> (nth 0 perm 0 <= n)%N ->
  exists fl acc' w' evs,
    step perm acc w = (Ok (fl, acc'), w')
    /\ trace w' = trace w ++ evs
    /\ collected evs = []
    /\ allocations evs = []
    /\ Forall (fits env n) (launches evs).
Proof.
  intros Hlen Hn. subst step. index4 perm Hlen. cbn in Hn.
  unfold CppThroughput.throughput_step. cbn.
  destruct (bool_decide _); cbn; do 4 eexists;
    (split; [reflexivity|]); cbn; rewrite <- !app_assoc; cbn;
    (split; [reflexivity|]); (split; [done|]); (split; [done|]);
    repeat constructor; cbn; eauto.
Qed.

Lemma cpp_loop_any perms : forall acc w,
  Forall (fun perm => 4 <= length perm /\ (nth 0 perm 0 <= n)%N) perms ->
  exists acc' w' evs,
    for_each_break perms acc step w = (Ok acc', w')
    /\ trace w' = trace w ++ evs
    /\ collected evs = []
    /\ allocations evs = []
    /\ Forall (fits env n) (launches evs).
Proof.
  induction perms as [|perm perms IH]; intros acc w Hperms.
  - exists acc, w, []. cbn. rewrite app_nil_r. by repeat split.
  - apply Forall_cons in Hperms as [[Hlen Hn] Hperms].
    rewrite for_each_break_cons.
    destruct (cpp_turn_any perm acc w Hlen Hn)
      as (fl & acc0 & w0 & evs0 & -> & Ht0 & Hc0 & Ha0 & Hf0).
    destruct fl.
    + destruct (IH acc0 w0 Hperms)
        as (acc1 & w1 & evs1 & -> & Ht1 & Hc1 & Ha1 & Hf1).
      exists acc1, w1, (evs0 ++ evs1). split; [done|].
      rewrite Ht1, Ht0, <- app_assoc. split; [done|].
      unfold collected, allocations, launches in *.
      rewrite !omap_app, Hc0, Hc1, Ha0, Ha1.
      repeat split; try done. by apply Forall_app.
    + by exists acc0, w0, evs0.
Qed.

End AnyStatus.

Lemma product_heads {A} (pool : list A) pools (d : A) :
  Forall (fun t => In (nth 0 t d) pool) (product (pool :: pools)).
Proof.
  apply List.Forall_forall. intros t Ht.
  rewrite ItertoolsFacts.product_cons in Ht.
  apply in_flat_map in Ht as (x & Hx & Ht).
  by apply in_map_iff in Ht as (t' & <- & _).
Qed.

(** X8: whatever the statuses of the sessions are, the sweep of
    [cpp-throughput/driver.py] returns normally once [client_nodes] has a
    candidate.  It asks for one allocation, first of all, whose size is the
    largest candidate of [client_nodes], and releases it, last of all;
    every job it launches runs in that allocation, and no session asks for
    more nodes than the allocation has. *)
Theorem cpp_sweep_within_allocation (env : Env) (db_nodes : list N)
    (db_cpus db_tpq db_port : N) (device : string)
    (clients_per_node client_nodes tensor_bytes : list N) :
  client_nodes <> [] ->
  exists n w',
    Py.max client_nodes = Ok n
    /\ In n client_nodes
    /\ (forall c, In c client_nodes -> (c <= n)%N)
    /\ CppThroughput.throughput env db_nodes db_cpus db_tpq db_port device
         clients_per_node client_nodes tensor_bytes init
       = (Ok tt, w')
    /\ head (trace w') = Some (GetAllocation n)
    /\ last (trace w') = Some (ReleaseAllocation (allocation_id env))
    /\ allocations (trace w') = [inl n; inr (allocation_id env)]
    /\ Forall (fits env n) (launches (trace w')).
Proof.
  intros Hne.
  destruct (max_spec client_nodes Hne) as (n & Hmax & Hin & Hle).
  exists n. unfold CppThroughput.throughput, bind, lift. rewrite Hmax.
  unfold CppThroughput.slurm_get_allocation, bind, emit, ret.
  match goal with |- context [for_each_break ?perms [] _ ?w0] =>
    set (w1 := w0); set (ps := perms) end.
  destruct (cpp_loop_any env db_cpus db_tpq db_port n ps [] w1)
    as (acc & w2 & evs & Hrun & Ht & Hc & Hal & Hf).
  { pose proof (SweepFacts.cpp_perms_index client_nodes clients_per_node
                  db_nodes tensor_bytes) as Hlen.
    pose proof (product_heads client_nodes
                  [clients_per_node; db_nodes; tensor_bytes] 0%N) as Hhead.
    fold ps in Hlen, Hhead.
    rewrite List.Forall_forall in Hlen, Hhead.
    apply List.Forall_forall. intros perm Hperm. split; [by apply Hlen|].
    apply Hle. by apply Hhead. }
  rewrite Hrun. eexists. do 3 (split; [done|]). split; [reflexivity|].
  cbn. rewrite Ht. subst w1. cbn [trace init app].
  split; [done|]. split; [by rewrite app_comm_cons, last_snoc|].
  unfold collected, allocations, launches in *.
  cbn [omap list_omap allocation_of launch_of].
  rewrite !omap_app, ?Hc, ?Hal. cbn. rewrite ?app_nil_r. by split.
Qed.

Lemma cpp_sweep_within_allocation_witness :
  exists n w',
    Py.max [128%N; 512%N; 256%N] = Ok n
    /\ In n [128%N; 512%N; 256%N]
    /\ (forall c, In c [128%N; 512%N; 256%N] -> (c <= n)%N)
    /\ CppThroughput.throughput Examples.env_first_fails [15%N] 36 4 6780
         "GPU" [48%N] [128%N; 512%N; 256%N] [1024%N] init
       = (Ok tt, w')
    /\ head (trace w') = Some (GetAllocation n)
    /\ last (trace w')
       = Some (ReleaseAllocation (allocation_id Examples.env_first_fails))
    /\ allocations (trace w')
       = [inl n; inr (allocation_id Examples.env_first_fails)]
    /\ Forall (fits Examples.env_first_fails n) (launches (trace w')).
Proof.
  apply (cpp_sweep_within_allocation Examples.env_first_fails [15%N] 36 4
           6780 "GPU" [48%N] [128%N; 512%N; 256%N] [1024%N]).
  discriminate.
Defined.

End CppMore.

(** ** More on the sweeps of [driver.py] *)

Module DriverMore.
Import Py SmartSim Itertools Observe Views LoopFacts DriverFacts.

Section WithEnv.
Variable env : Env.



Section Groups.
Variables (exp : Experiment) (run_db_as_batch : bool)
          (batch_args : list (string * option string))
          (db_hosts : list string) (db_cpus db_port : N)
          (net_ifname : string) (clients_per_node client_nodes : list N)
          (iterations : N) (tensor_bytes : list N).

Let perms := product [client_nodes; clients_per_node; tensor_bytes].
Let group_events := throughput_group_events env exp run_db_as_batch
               batch_args db_hosts db_cpus db_port net_ifname
               clients_per_node client_nodes iterations tensor_bytes.




End Groups.
End WithEnv.


(** X17: when one of the workload axes of [throughput_scaling] has no
    candidate, an orchestrator is still started and stopped for every
    entry of [db_nodes], and no session is launched. *)
Theorem throughput_scaling_idle_databases (env : Env)
    (exp_name launcher : string) (run_db_as_batch : bool)
    (batch_args : list (string * option string)) (db_hosts : list string)
    (db_nodes : list N) (db_cpus db_port : N) (net_ifname : string)
    (clients_per_node client_nodes : list N) (iterations : N)
    (tensor_bytes : list N) :
  In [] [client_nodes; clients_per_node; tensor_bytes] ->
  exists w',
    Driver.throughput_scaling env exp_name launcher run_db_as_batch
      batch_args db_hosts db_nodes db_cpus db_port net_ifname
      clients_per_node client_nodes iterations tensor_bytes init
    = (Ok tt, w')
    /\ deployments (trace w')
       = concat (imap (fun i d => [DStart i d; DStop i]) db_nodes)
    /\ launches (trace w') = []
    /\ active w' = [].
Proof.
  intros Hempty.
  destruct (throughput_scaling_trace env _ run_db_as_batch batch_args
              db_hosts db_cpus db_port net_ifname clients_per_node
              client_nodes iterations tensor_bytes exp_name launcher db_nodes
              eq_refl)
    as (w' & Hrun & Ht & Ha & _).
  exists w'. split; [done|]. split; [|split; [|done]]; rewrite Ht.
  - unfold deployments. rewrite omap_loop_trace. f_equal.
    apply imap_ext. intros i d _. rewrite !Nat.add_0_l, Nat.mul_1_r.
    fold (deployments (throughput_group_events env
      (Driver.Experiment_ env exp_name launcher) run_db_as_batch batch_args
      db_hosts db_cpus db_port net_ifname clients_per_node client_nodes
      iterations tensor_bytes d i
      (i * length (product [client_nodes; clients_per_node; tensor_bytes]))
      (i * length (product [client_nodes; clients_per_node; tensor_bytes])))).
    rewrite (throughput_group_deployments env).
    by rewrite (ItertoolsFacts.product_empty_axis _ Hempty).
  - unfold launches. rewrite omap_loop_trace.
    apply ViewFacts.concat_imap_nil. intros i d.
    unfold throughput_group_events.
    rewrite (ItertoolsFacts.product_empty_axis _ Hempty).
    done.
Qed.

Lemma throughput_scaling_idle_databases_witness :
  exists w',
    Driver.throughput_scaling Examples.env_first_fails "throughput-scaling"
      "slurm" true [] [] [16%N; 32%N] 36 6780 "ipogif0" [48%N] [128%N] 100
      [] init
    = (Ok tt, w')
    /\ deployments (trace w')
       = concat (imap (fun i d => [DStart i d; DStop i]) [16%N; 32%N])
    /\ launches (trace w') = []
    /\ active w' = [].
Proof.
  apply throughput_scaling_idle_databases. cbn. tauto.
Defined.



End DriverMore.

(** ** Names and records of the sessions of [driver.py] *)

Module SessionFacts.
Import Py SmartSim PyFacts NamingFacts Observe Views.




(** *** The record of a session *)













End SessionFacts.

(** ** Reading the results in [throughput-plotter.py] *)

Module PlotterMore.
Import Py Plotter PlotterRuns PyFacts NamingFacts Views.

(** *** Finding the run directories *)

Lemma run_prefix_misses nnodes DB_node size n t d i b tok :
  String.prefix (run_prefix nnodes DB_node size)
                (Driver.throughput_session_name n t d i b tok) = false.
Proof.
  destruct (String.prefix _ _) eqn:Hp; [|done].
  apply prefix_spec in Hp as [r Hr]. revert Hr.
  unfold run_prefix, Driver.throughput_session_name. flatten_name.
  intros Hr. peel Hr. discriminate Hr.
Qed.

Lemma fold_left_fixed {A B} (f : A -> B -> A) (l : list B) (a : A) :
  (forall x, f a x = a) -> fold_left f l a = a.
Proof.
  intros Hf. induction l as [|x l IH]; [done|]. cbn. by rewrite Hf.
Qed.

(** X13: the pattern the plotter looks for starts with [thoughput-sess],
    the names [create_throughput_session] gives start with
    [throughput-sess].  In a directory that holds sessions named by the
    driver only, no size finds its run: indexing the empty result of
    [glob] raises, the handler passes it over, and the loop over the sizes
    ends with no data frame at all. *)
Theorem plotter_misses_driver_runs
    (float_of_string : string -> option float) (entries : list string)
    (files_of : string -> result (list (string * list string)))
    (base_path : string) (nnodes DB_node : Z) :
  Forall (fun e => exists n t d i b tok,
            e = Driver.throughput_session_name n t d i b tok) entries ->
  (forall size,
     glob_prefix base_path (run_prefix nnodes DB_node size) entries = []
     /\ analyse_size float_of_string entries files_of base_path nnodes
          DB_node size = Raise IndexError)
  /\ analyse_sizes float_of_string entries files_of base_path nnodes DB_node
     = ∅.
Proof.
  intros Hentries.
  assert (forall size,
            glob_prefix base_path (run_prefix nnodes DB_node size) entries
            = []) as Hglob.
  { intros size. unfold glob_prefix.
    induction Hentries as [|e es (n & t & d & i & b & tok & ->) _ IH];
      [done|].
    cbn [List.filter]. by rewrite run_prefix_misses. }
  assert (forall size,
            analyse_size float_of_string entries files_of base_path nnodes
              DB_node size = Raise IndexError) as Hsize.
  { intros size. unfold analyse_size. by rewrite Hglob. }
  split; [by split|].
  unfold analyse_sizes. apply fold_left_fixed. intros size.
  unfold size_step. by rewrite Hsize.
Qed.

Lemma plotter_misses_driver_runs_witness :
  let entries :=
    [ Driver.throughput_session_name 128 36 16 100 1024 "1f0c";
      Driver.throughput_session_name 128 36 16 100 8192 "a2b7" ] in
  (forall size,
     glob_prefix "./throughput-scaling-redis-2" (run_prefix 128 16 size)
                 entries = []
     /\ analyse_size (fun _ => None) entries (fun _ => Ok [])
          "./throughput-scaling-redis-2" 128 16 size = Raise IndexError)
  /\ analyse_sizes (fun _ => None) entries (fun _ => Ok [])
       "./throughput-scaling-redis-2" 128 16 = ∅.
Proof.
  intros entries. apply plotter_misses_driver_runs.
  repeat constructor; by do 6 eexists.
Defined.

(** *** Reading the rank files *)

Section RankFiles.
Variable float_of_string : string -> option float.
Variable size : Z.

Let read_lines := read_lines float_of_string size.
Let line_step := line_step float_of_string size.

Lemma read_lines_app lines1 lines2 function_times :
  read_lines function_times (lines1 ++ lines2)
  = match read_lines function_times lines1 with
    | Ok function_times' => read_lines function_times' lines2
    | Raise e => Raise e
    end.
Proof.
  subst read_lines. revert function_times.
  induction lines1 as [|line lines1 IH]; intros function_times; [done|].
  cbn. destruct (Plotter.line_step _ _ _ _); [apply IH|done].
Qed.

Lemma line_step_reads line sample samples :
  reads float_of_string line sample ->
  line_step {[ "loop_time" := samples ]} line
  = Ok {[ "loop_time" :=
            samples ++ match sample with
                       | Some t => [speed size loop_iters t]
                       | None => []
                       end ]}.
Proof.
  subst line_step. unfold Plotter.line_step.
  destruct sample as [t|].
  - intros (w & field & rest & -> & Hfield & Ht). cbn.
    rewrite lookup_singleton_eq, Hfield, Ht.
    by rewrite insert_singleton_eq.
  - intros (w & label & rest & -> & Hlabel). cbn.
    rewrite lookup_singleton_ne by done. by rewrite app_nil_r.
Qed.

Lemma split_cons (c a : ascii) (s : string) :
  split c (String a s)
  = if Ascii.eqb a c then "" :: split c s
    else match split c s with
         | [] => [String a ""]
         | w :: ws => String a w :: ws
         end.
Proof. reflexivity. Qed.

Lemma split_no_comma line :
  contains "," line = false -> split "," line = [line].
Proof.
  induction line as [|a line IH]; [done|].
  rewrite contains_unfold, split_cons. cbn [String.prefix].
  destruct (ascii_dec "," a) as [<-|Hne]; [by destruct line|].
  intros Hline. rewrite (IH Hline).
  destruct (Ascii.eqb_spec a ",") as [->|_]; done.
Qed.

Lemma line_step_fails line e samples :
  fails float_of_string line e ->
  line_step {[ "loop_time" := samples ]} line = Raise e.
Proof.
  subst line_step. unfold Plotter.line_step.
  intros [Hline|w Hsplit|w field rest Hsplit Hfield
          |w field rest t Hsplit Hfield Ht].
  - by rewrite split_no_comma.
  - rewrite Hsplit. cbn. by rewrite lookup_singleton_eq.
  - rewrite Hsplit. cbn. by rewrite lookup_singleton_eq, Hfield.
  - rewrite Hsplit. cbn. by rewrite lookup_singleton_eq, Hfield, Ht.
Qed.

Lemma read_lines_reads lines samples_of : forall samples,
  Forall2 (reads float_of_string) lines samples_of ->
  read_lines {[ "loop_time" := samples ]} lines
  = Ok {[ "loop_time" :=
            samples ++ map (speed size loop_iters) (omap id samples_of) ]}.
Proof.
  intros samples Hlines. revert samples.
  induction Hlines as [|line sample lines samples_of Hline _ IH];
    intros samples.
  - cbn. by rewrite app_nil_r.
  - subst read_lines. cbn [Plotter.read_lines].
    pose proof (line_step_reads line sample samples Hline) as Hstep.
    subst line_step. rewrite Hstep, IH.
    destruct sample; cbn; by rewrite <- ?app_assoc, ?app_nil_r.
Qed.

End RankFiles.

(** X14: reading the lines of a rank file goes through them in order.  A
    line whose second field is [loop_time] and whose third field is a
    number other than zero adds one sample, [size * loop_iters] divided by
    that number and by [1e9]; a line with another second field adds
    nothing, whatever its other fields are.  The samples read before are
    kept, in front. *)
Theorem rank_file_samples (float_of_string : string -> option float)
    (size : Z) (lines : list string) (samples_of : list (option float))
    (samples : list float) :
  Forall2 (reads float_of_string) lines samples_of ->
  read_lines float_of_string size {[ "loop_time" := samples ]} lines
  = Ok {[ "loop_time" :=
            samples ++ map (speed size loop_iters) (omap id samples_of) ]}.
Proof. apply read_lines_reads. Qed.

Lemma rank_file_samples_witness :
  let float_of_string := fun s : string =>
    if String.eqb s "1.0" then Some 1%float
    else if String.eqb s "2.0" then Some 2%float else None in
  read_lines float_of_string 1024000 {[ "loop_time" := [] ]}
    ["0,loop_time,1.0"; "0,put_tensor,0.004"; "0,loop_time,2.0"]
  = Ok {[ "loop_time" :=
            [] ++ map (speed 1024000 loop_iters)
                      (omap id [Some 1%float; None; Some 2%float]) ]}.
Proof.
  intros float_of_string. apply rank_file_samples.
  constructor; [|constructor; [|constructor; [|constructor]]].
  - exists "0", "1.0", []. repeat split; reflexivity.
  - exists "0", "put_tensor", ["0.004"]. split; [reflexivity|discriminate].
  - exists "0", "2.0", []. repeat split; reflexivity.
Defined.

(** X15: a line that cannot be read ends the reading with an exception,
    and the samples read so far are lost with it.  This is so for a line
    without a comma (an empty line is one) and for a [loop_time] line
    without a third field, which raise [IndexError]; for a [loop_time]
    line whose third field is no number, which raises [ValueError]; and
    for a [loop_time] line whose third field is zero, which raises
    [ZeroDivisionError]. *)
Theorem rank_file_bad_line (float_of_string : string -> option float)
    (size : Z) (before after : list string)
    (samples_of : list (option float)) (samples : list float)
    (bad : string) (e : exn) :
  Forall2 (reads float_of_string) before samples_of ->
  fails float_of_string bad e ->
  read_lines float_of_string size {[ "loop_time" := samples ]}
             (before ++ bad :: after)
  = Raise e.
Proof.
  intros Hbefore Hbad.
  rewrite read_lines_app, (read_lines_reads _ _ _ _ _ Hbefore).
  cbn [read_lines]. by rewrite (line_step_fails _ _ _ _ _ Hbad).
Qed.

Lemma rank_file_bad_line_witness :
  let float_of_string := fun s : string =>
    if String.eqb s "1.0" then Some 1%float else None in
  read_lines float_of_string 1024000 {[ "loop_time" := [] ]}
    (["0,loop_time,1.0"] ++ String "010"%char "" :: ["1,loop_time,1.0"])
  = Raise IndexError.
Proof.
  intros float_of_string.
  apply (rank_file_bad_line float_of_string 1024000 ["0,loop_time,1.0"]
           ["1,loop_time,1.0"] [Some 1%float] [] (String "010"%char "")
           IndexError).
  - constructor; [|constructor].
    exists "0", "1.0", []. repeat split; reflexivity.
  - apply fails_no_comma. reflexivity.
Defined.

(** X16: reading the files of a run directory is reading, as one
    sequence and in the order of the listing, the lines of the files
    whose name contains both [.csv] and [rank_]; the other files are not
    looked at. *)
Theorem run_directory_lines (float_of_string : string -> option float)
    (size : Z) (files : list (string * list string))
    (function_times : gmap string (list float)) :
  read_files float_of_string size function_times files
  = read_lines float_of_string size function_times
      (concat (map snd (List.filter is_rank_file files))).
Proof.
  revert function_times.
  induction files as [|[file lines] files IH]; intros function_times;
    [done|].
  cbn [read_files List.filter]. unfold is_rank_file at 1. cbn [fst].
  destruct (contains ".csv" file && contains "rank_" file).
  - cbn [map concat snd]. rewrite read_lines_app.
    destruct (read_lines _ _ _ lines); [apply IH|done].
  - apply IH.
Qed.

End PlotterMore.
